(** * contador-pascom-2025: [scripts/update_data.py]

    A shallow embedding of the update script, and the properties of its
    tabulate / merge / persist pipeline.

    Modelling conventions.
    - A Python [str] is a [string]: the bytes of its UTF-8 encoding.
    - A Python [int] is a [Z].
    - A Python [dict] (insertion ordered, keys unique) is an association
      list; [dict_set] is [d[k] = v]: it overwrites in place or appends.
      An association list is a dict when its keys are pairwise distinct
      ([dict_wf]).
    - Exceptions are explicit ([result]); [exit(n)] raises [SystemExit n],
      which [except Exception] does not catch.
    - The persisted file [dados.json] is the only state that is threaded
      ([file_state]); what the environment decides (the environment
      variable, the outcome of the download, the outcome of the write) is
      an input ([Env]).
    - [json.dump] and [json.load] are modelled on the texts of CountMaps
      ([Json.dumps], [Json.loads]); [pandas] and [requests] are the
      environment.
    - [log_message] only prints; the console is not modelled. *)

From Stdlib Require Import List String Ascii ZArith Lia Bool Permutation Sorted.
From Stdlib Require Import DecimalString DecimalFacts DecimalPos DecimalZ QArith.
Import ListNotations.
Local Open Scope string_scope.
Local Open Scope Z_scope.

(** ** Python dictionaries *)

Module Dict.

Definition dict := list (string * Z).

Definition keys (d : dict) : list string := map fst d.
Definition values (d : dict) : list Z := map snd d.

(** [d.get(k)] *)
Fixpoint get (d : dict) (k : string) : option Z :=
  match d with
  | [] => None
  | (k', v) :: d' => if String.eqb k' k then Some v else get d' k
  end.

(** [d[k] = v] *)
Fixpoint set (d : dict) (k : string) (v : Z) : dict :=
  match d with
  | [] => [(k, v)]
  | (k', v') :: d' =>
      if String.eqb k' k then (k', v) :: d' else (k', v') :: set d' k v
  end.

(** [dict(pairs)] *)
Definition of_items (l : list (string * Z)) : dict :=
  fold_left (fun d kv => set d (fst kv) (snd kv)) l [].

Definition dict_wf (d : dict) : Prop := NoDup (keys d).

(** Truth value of a dict: false only for the empty one. *)
Definition truthy_dict (d : dict) : bool :=
  match d with [] => false | _ :: _ => true end.

(** Python's [d1 == d2] on dicts: the same keys with the same values, in
    any order. *)
Definition dict_eq (d1 d2 : dict) : Prop := forall k, get d1 k = get d2 k.

End Dict.
Import Dict.

(** ** [merge_data] *)

(** One turn of the loop of [merge_data]: [get] answers [Some old] when
    [paroquia in merged_data], and [old] is then [merged_data[paroquia]]. *)
Definition merge_step (merged_data : dict) (item : string * Z) : dict :=
  let '(paroquia, count) := item in
  match get merged_data paroquia with
  | Some old => set merged_data paroquia (Z.max old count)
  | None => set merged_data paroquia count
  end.

Definition merge_data (existing_data new_data : dict) : dict :=
  fold_left merge_step new_data existing_data.

(** ** Python strings *)

Module PyStr.

Definition code (c : ascii) : N := N_of_ascii c.

Definition between (lo hi : N) (c : ascii) : bool :=
  ((lo <=? code c) && (code c <=? hi))%N.

Definition byte (n : N) (c : ascii) : bool := (code c =? n)%N.

(** Truth value of a [str]: false only for the empty string. *)
Definition truthy (s : string) : bool :=
  match s with EmptyString => false | String _ _ => true end.

(** [needle in hay] *)
Fixpoint str_in (needle hay : string) : bool :=
  prefix needle hay ||
  match hay with
  | EmptyString => false
  | String _ hay' => str_in needle hay'
  end.

(** [str.lower]. Upper-case letters are mapped to lower case on Basic
    Latin (A-Z) and on the Latin-1 Supplement (U+00C0..U+00DE without the
    multiplication sign U+00D7, in UTF-8 the byte 0xC3 followed by
    0x80..0x9E), which is the repertoire of Portuguese text; every other
    character is left as it is. *)
Definition to_lower (c : ascii) : ascii := ascii_of_N (code c + 32).

Definition latin1_upper (c : ascii) : bool :=
  between 0x80 0x9E c && negb (byte 0x97 c).

Fixpoint lower (s : string) : string :=
  match s with
  | EmptyString => EmptyString
  | String c r =>
      if between 0x41 0x5A c then String (to_lower c) (lower r)
      else if byte 0xC3 c then
        match r with
        | String d r' =>
            if latin1_upper d then String c (String (to_lower d) (lower r'))
            else String c (lower r)
        | EmptyString => String c EmptyString
        end
      else String c (lower r)
  end.

(** [str.isspace] on one character, by its UTF-8 bytes: U+0009..U+000D,
    U+001C..U+0020, U+0085, U+00A0, U+1680, U+2000..U+200A, U+2028,
    U+2029, U+202F, U+205F, U+3000. *)
Definition space1 (c : ascii) : bool :=
  between 0x09 0x0D c || between 0x1C 0x20 c.

Definition space2 (c1 c2 : ascii) : bool :=
  byte 0xC2 c1 && (byte 0x85 c2 || byte 0xA0 c2).

Definition space3 (c1 c2 c3 : ascii) : bool :=
  (byte 0xE1 c1 && byte 0x9A c2 && byte 0x80 c3)
  || (byte 0xE2 c1 && byte 0x80 c2
      && (between 0x80 0x8A c3 || byte 0xA8 c3 || byte 0xA9 c3 || byte 0xAF c3))
  || (byte 0xE2 c1 && byte 0x81 c2 && byte 0x9F c3)
  || (byte 0xE3 c1 && byte 0x80 c2 && byte 0x80 c3).

(** [str.lstrip()] *)
Fixpoint lstrip (s : string) : string :=
  match s with
  | EmptyString => s
  | String c1 r1 =>
      if space1 c1 then lstrip r1
      else
        match r1 with
        | EmptyString => s
        | String c2 r2 =>
            if space2 c1 c2 then lstrip r2
            else
              match r2 with
              | EmptyString => s
              | String c3 r3 => if space3 c1 c2 c3 then lstrip r3 else s
              end
        end
  end.

(** [str.rstrip()]: a suffix made of white space only is dropped. *)
Fixpoint rstrip (s : string) : string :=
  match s with
  | EmptyString => s
  | String c r => if truthy (lstrip s) then String c (rstrip r) else EmptyString
  end.

(** [str.strip()] *)
Definition strip (s : string) : string := rstrip (lstrip s).

End PyStr.
Import PyStr.

(** ** [process_paroquia_data] *)

(** A cell of the sheet: [None] is a missing value (NaN), anything else is
    held by its text [str(p)]. *)
Definition cell := option string.

(** A [DataFrame], column by column: the header of each column and its
    cells. *)
Definition DataFrame := list (string * list cell).

Definition df_columns (df : DataFrame) : list string := map fst df.

(** [df.empty]: no column, or no row. *)
Definition df_empty (df : DataFrame) : bool :=
  match df with
  | [] => true
  | (_, cells) :: _ => match cells with [] => true | _ => false end
  end.

(** The cells of [df[col]], when the name [col] heads one column. *)
Fixpoint df_column (df : DataFrame) (col : string) : list cell :=
  match df with
  | [] => []
  | (name, cells) :: df' =>
      if String.eqb name col then cells else df_column df' col
  end.

(** [series.dropna().tolist()] *)
Fixpoint dropna (cells : list cell) : list string :=
  match cells with
  | [] => []
  | Some p :: cells' => p :: dropna cells'
  | None :: cells' => dropna cells'
  end.

Definition keywords : list string :=
  ["paróquia"; "paroquia"; "cidade"; "qual sua"].

(** The test of the loop over [df.columns]. *)
Definition is_paroquia_header (col : string) : bool :=
  let col_lower := lower col in
  existsb (fun keyword => str_in keyword col_lower) keywords.

(** The column that holds the parishes: the first header with a keyword,
    else the fifth column, else none. *)
Definition paroquia_column (df : DataFrame) : option string :=
  match find is_paroquia_header (df_columns df) with
  | Some col => Some col
  | None =>
      if (5 <=? List.length (df_columns df))%nat then nth_error (df_columns df) 4
      else None
  end.

(** The condition of the list comprehension of line 82. *)
Definition keep (p : string) : bool :=
  truthy (strip p) && str_in "paróquia" (lower p).

(** [Counter(iterable)]: [self[elem] = self.get(elem, 0) + 1] for each
    element, in order. *)
Definition count_elem (d : dict) (elem : string) : dict :=
  set d elem (match get d elem with Some n => n | None => 0 end + 1).

Definition Counter (l : list string) : dict := fold_left count_elem l [].

(** Lines 82 to 88: filter the labels, count them. *)
Definition tabulate (paroquias_list : list string) : dict :=
  Counter (filter keep paroquias_list).

(** How often [p] occurs in [l]: what a count is compared with. *)
Fixpoint occurrences (p : string) (l : list string) : Z :=
  match l with
  | [] => 0
  | q :: l' => (if String.eqb q p then 1 else 0) + occurrences p l'
  end.

(** Whether [df[col]] is a series: the name [col] heads one column only.
    When two columns have the name, [df[col]] is a frame, [tolist] raises
    and the [except] branch answers the empty map. *)
Definition is_series (df : DataFrame) (col : string) : bool :=
  (List.length (filter (String.eqb col) (df_columns df)) <=? 1)%nat.

Definition process_paroquia_data (df : option DataFrame) : dict :=
  match df with
  | None => []
  | Some df =>
      if df_empty df then []
      else
        match paroquia_column df with
        | None => []
        | Some col =>
            if is_series df col then tabulate (dropna (df_column df col))
            else []
        end
  end.

(** ** [sorted(data.items(), key=lambda x: x[1], reverse=True)] *)

(** Python's [sorted] is stable, also with [reverse=True]: items with
    equal counts keep the order they come in.  The model is the stable
    insertion sort: an item goes in front of the first item whose count
    is not greater than its own. *)
Fixpoint insert_desc (x : string * Z) (l : list (string * Z)) :=
  match l with
  | [] => [x]
  | y :: l' => if snd y <=? snd x then x :: l else y :: insert_desc x l'
  end.

Definition sorted_desc (items : list (string * Z)) : list (string * Z) :=
  fold_right insert_desc [] items.

(** [x] may come in front of [y] in the sorted list. *)
Definition count_ge (x y : string * Z) : Prop := snd y <= snd x.

(** ** The [json] module, on CountMaps *)

Module Json.

Definition dquote : ascii := ascii_of_N 0x22.
Definition backslash : ascii := ascii_of_N 0x5C.
Definition nl : ascii := ascii_of_N 0x0A.
Definition chr (n : N) : string := String (ascii_of_N n) EmptyString.

(** *** [json.dump(obj, f, ensure_ascii=False, indent=2)] *)

Definition hex_digit (n : N) : string :=
  if (n <? 10)%N then chr (0x30 + n) else chr (0x57 + n).

(** [ESCAPE_DCT] of [json.encoder]: with [ensure_ascii=False] only the
    quote, the backslash and the control characters are escaped. *)
Definition escape_char (c : ascii) : string :=
  if byte 0x22 c then String backslash (String dquote EmptyString)
  else if byte 0x5C c then "\\"
  else if byte 0x0A c then "\n"
  else if byte 0x0D c then "\r"
  else if byte 0x09 c then "\t"
  else if byte 0x08 c then "\b"
  else if byte 0x0C c then "\f"
  else if (code c <? 0x20)%N then
    "\u00" ++ hex_digit (code c / 16) ++ hex_digit (code c mod 16)
  else String c EmptyString.

Fixpoint escape (s : string) : string :=
  match s with
  | EmptyString => EmptyString
  | String c r => escape_char c ++ escape r
  end.

Definition encode_basestring (s : string) : string :=
  String dquote (escape s ++ String dquote EmptyString).

(** [int.__repr__] *)
Definition int_repr (z : Z) : string := NilZero.string_of_int (Z.to_int z).

Definition newline_indent : string := String nl "  ".

Definition encode_item (item : string * Z) : string :=
  encode_basestring (fst item) ++ ": " ++ int_repr (snd item).

(** The items after the first one, each behind the item separator. *)
Fixpoint encode_more (items : dict) : string :=
  match items with
  | [] => EmptyString
  | item :: items' =>
      "," ++ newline_indent ++ encode_item item ++ encode_more items'
  end.

Definition dumps (obj : dict) : string :=
  match obj with
  | [] => "{}"
  | item :: items =>
      "{" ++ newline_indent ++ encode_item item ++ encode_more items
      ++ String nl "}"
  end.

(** *** [json.load(f)]

    The decoder follows [json.decoder] ([JSONObject], [scanstring]) and
    [json.scanner] on the texts whose value is a CountMap: one object,
    its keys strings, its values integers.  On every other text it
    answers [None]; there [json.load] raises [JSONDecodeError], or
    returns a value that is no CountMap. *)

Definition is_ws (c : ascii) : bool :=
  byte 0x20 c || byte 0x09 c || byte 0x0A c || byte 0x0D c.

Fixpoint skip_ws (s : string) : string :=
  match s with
  | EmptyString => s
  | String c r => if is_ws c then skip_ws r else s
  end.

Definition hex_value (c : ascii) : option N :=
  if between 0x30 0x39 c then Some (code c - 0x30)%N
  else if between 0x61 0x66 c then Some (code c - 0x57)%N
  else if between 0x41 0x46 c then Some (code c - 0x37)%N
  else None.

Definition decode_uXXXX (h1 h2 h3 h4 : ascii) : option N :=
  match hex_value h1, hex_value h2, hex_value h3, hex_value h4 with
  | Some a, Some b, Some c, Some d => Some (((a * 16 + b) * 16 + c) * 16 + d)%N
  | _, _, _, _ => None
  end.

(** [chr(uni)], in UTF-8.  A surrogate that stands alone has no UTF-8
    form; it is given the three bytes that the scheme would give it. *)
Definition utf8 (uni : N) : string :=
  (if uni <? 0x80 then chr uni
   else if uni <? 0x800 then chr (0xC0 + uni / 64) ++ chr (0x80 + uni mod 64)
   else if uni <? 0x10000 then
     chr (0xE0 + uni / 4096) ++ chr (0x80 + (uni / 64) mod 64)
     ++ chr (0x80 + uni mod 64)
   else
     chr (0xF0 + uni / 262144) ++ chr (0x80 + (uni / 4096) mod 64)
     ++ chr (0x80 + (uni / 64) mod 64) ++ chr (0x80 + uni mod 64))%N.

(** [BACKSLASH] of [json.decoder] *)
Definition unescape (esc : ascii) : option string :=
  if byte 0x22 esc then Some (chr 0x22)
  else if byte 0x5C esc then Some (chr 0x5C)
  else if byte 0x2F esc then Some (chr 0x2F)
  else if byte 0x62 esc then Some (chr 0x08)
  else if byte 0x66 esc then Some (chr 0x0C)
  else if byte 0x6E esc then Some (chr 0x0A)
  else if byte 0x72 esc then Some (chr 0x0D)
  else if byte 0x74 esc then Some (chr 0x09)
  else None.

Definition chunk (s : string) (r : option (string * string)) :=
  match r with
  | Some (content, rest) => Some (s ++ content, rest)
  | None => None
  end.

Definition high_surrogate (uni : N) : bool :=
  ((0xD800 <=? uni) && (uni <=? 0xDBFF))%N.
Definition low_surrogate (uni : N) : bool :=
  ((0xDC00 <=? uni) && (uni <=? 0xDFFF))%N.
Definition join_surrogates (uni uni2 : N) : N :=
  (0x10000 + ((uni - 0xD800) * 1024 + (uni2 - 0xDC00)))%N.

(** [scanstring(s, end)], strict: [s] starts behind the opening quote;
    the result is the decoded string and the text behind the closing
    quote. *)
Fixpoint scanstring (s : string) : option (string * string) :=
  match s with
  | EmptyString => None
  | String c r =>
      if byte 0x22 c then Some (EmptyString, r)
      else if byte 0x5C c then
        match r with
        | EmptyString => None
        | String esc r1 =>
            if byte 0x75 esc then
              match r1 with
              | String h1 (String h2 (String h3 (String h4 r5))) =>
                  match decode_uXXXX h1 h2 h3 h4 with
                  | None => None
                  | Some uni =>
                      if high_surrogate uni then
                        match r5 with
                        | String b (String u (String g1 (String g2
                            (String g3 (String g4 r11))))) =>
                            if byte 0x5C b && byte 0x75 u then
                              match decode_uXXXX g1 g2 g3 g4 with
                              | None => None
                              | Some uni2 =>
                                  if low_surrogate uni2
                                  then chunk (utf8 (join_surrogates uni uni2))
                                             (scanstring r11)
                                  else chunk (utf8 uni) (scanstring r5)
                              end
                            else chunk (utf8 uni) (scanstring r5)
                        | _ => chunk (utf8 uni) (scanstring r5)
                        end
                      else chunk (utf8 uni) (scanstring r5)
                  end
              | _ => None
              end
            else
              match unescape esc with
              | Some char => chunk char (scanstring r1)
              | None => None
              end
        end
      else if (code c <? 0x20)%N then None
      else chunk (String c EmptyString) (scanstring r)
  end.

Definition digit_of_char (c : ascii) : option (Decimal.uint -> Decimal.uint) :=
  if byte 0x30 c then Some Decimal.D0
  else if byte 0x31 c then Some Decimal.D1
  else if byte 0x32 c then Some Decimal.D2
  else if byte 0x33 c then Some Decimal.D3
  else if byte 0x34 c then Some Decimal.D4
  else if byte 0x35 c then Some Decimal.D5
  else if byte 0x36 c then Some Decimal.D6
  else if byte 0x37 c then Some Decimal.D7
  else if byte 0x38 c then Some Decimal.D8
  else if byte 0x39 c then Some Decimal.D9
  else None.

(** The longest run of digits. *)
Fixpoint scan_digits (s : string) : Decimal.uint * string :=
  match s with
  | EmptyString => (Decimal.Nil, s)
  | String c r =>
      match digit_of_char c with
      | Some D => let (u, rest) := scan_digits r in (D u, rest)
      | None => (Decimal.Nil, s)
      end
  end.

(** The integer part of [NUMBER_RE]: an optional minus sign, then a
    single zero or a run of digits that starts with a digit from 1 to 9.
    A zero in front ends the number. *)
Definition scan_nat (s : string) : option (Decimal.uint * string) :=
  match s with
  | EmptyString => None
  | String c r =>
      if byte 0x30 c then Some (Decimal.D0 Decimal.Nil, r)
      else if between 0x31 0x39 c then Some (scan_digits s)
      else None
  end.

Definition scan_int (s : string) : option (Z * string) :=
  match s with
  | EmptyString => None
  | String c r =>
      if byte 0x2D c then
        match scan_nat r with
        | Some (u, rest) => Some (Z.of_int (Decimal.Neg u), rest)
        | None => None
        end
      else
        match scan_nat s with
        | Some (u, rest) => Some (Z.of_int (Decimal.Pos u), rest)
        | None => None
        end
  end.

(** The loop of [JSONObject]: [s] starts behind the opening quote of a
    key, [pairs] holds the members read so far.  Each turn reads one
    member, so the number of characters is fuel enough. *)
Fixpoint JSONObject_loop (fuel : nat) (s : string) (pairs : dict)
  : option (dict * string) :=
  match fuel with
  | O => None
  | S fuel' =>
      match scanstring s with
      | None => None
      | Some (key, r) =>
          match skip_ws r with
          | EmptyString => None
          | String colon r1 =>
              if byte 0x3A colon then
                match scan_int (skip_ws r1) with
                | None => None
                | Some (value, r2) =>
                    let pairs' := set pairs key value in
                    match skip_ws r2 with
                    | EmptyString => None
                    | String c r3 =>
                        if byte 0x7D c then Some (pairs', r3)
                        else if byte 0x2C c then
                          match skip_ws r3 with
                          | EmptyString => None
                          | String q r4 =>
                              if byte 0x22 q
                              then JSONObject_loop fuel' r4 pairs'
                              else None
                          end
                        else None
                    end
                end
              else None
          end
      end
  end.

(** [JSONObject]: [s] starts behind the opening brace. *)
Definition JSONObject (s : string) : option (dict * string) :=
  match skip_ws s with
  | EmptyString => None
  | String c r =>
      if byte 0x7D c then Some ([], r)
      else if byte 0x22 c then JSONObject_loop (String.length r) r []
      else None
  end.

(** [json.loads(s)]: one value, then white space only. *)
Definition loads (s : string) : option dict :=
  match skip_ws s with
  | EmptyString => None
  | String c r =>
      if byte 0x7B c then
        match JSONObject r with
        | Some (obj, rest) =>
            match skip_ws rest with
            | EmptyString => Some obj
            | String _ _ => None
            end
        | None => None
        end
      else None
  end.

(** *** Two notions for the proofs *)

(** The text behind a number does not go on with a digit. *)
Definition no_digit_ahead (s : string) : Prop :=
  match s with
  | EmptyString => True
  | String c _ => digit_of_char c = None
  end.

(** What [dumps] writes behind the opening quote of the key [k], when
    the items behind it are [items]. *)
Definition member_text (k : string) (v : Z) (items : dict) (tail : string) :=
  escape k
  ++ String dquote (": " ++ int_repr v ++ encode_more items
                    ++ String nl (String "}" tail)).

End Json.

(** ** Exceptions and the persisted file *)

Inductive exn : Type :=
| Exception (name : string)    (* any subclass of [Exception] *)
| SystemExit (code : Z).       (* raised by [exit(code)] *)

Inductive result (A : Type) : Type :=
| Ok (a : A)
| Raise (e : exn).
Arguments Ok {A} a.
Arguments Raise {A} e.

(** The file [dados.json].  A text is either one that [json.load]
    rejects or the text of a CountMap; a file whose JSON value is of
    another kind (a list, a number, an object with other values than
    integers) is outside the model. *)
Inductive file_state : Type :=
| Absent                       (* [os.path.exists] is false *)
| Unreadable                   (* [open] or the decoding of the bytes raises *)
| Text (content : string).

(** A computation that may read or write [dados.json] and may raise. *)
Definition IO (A : Type) : Type := file_state -> file_state * result A.

Definition ret {A} (a : A) : IO A := fun fs => (fs, Ok a).

Definition raise {A} (e : exn) : IO A := fun fs => (fs, Raise e).

Definition bind {A B} (m : IO A) (f : A -> IO B) : IO B :=
  fun fs =>
    match m fs with
    | (fs', Ok a) => f a fs'
    | (fs', Raise e) => (fs', Raise e)
    end.

Notation "x <- m ;; k" := (bind m (fun x => k))
  (at level 61, m at next level, right associativity).
Notation "m ;;; k" := (bind m (fun _ => k))
  (at level 61, right associativity).

(** [try: body  except Exception: handler].  [SystemExit] is no
    [Exception] and passes through. *)
Definition try_except {A} (body handler : IO A) : IO A :=
  fun fs =>
    match body fs with
    | (fs', Raise (Exception _)) => handler fs'
    | r => r
    end.

(** [exit(code)] *)
Definition exit {A} (code : Z) : IO A := raise (SystemExit code).

(** The exit status of the process for the result of [main]: an uncaught
    exception ends the interpreter with status 1. *)
Definition exit_status {A} (r : result A) : Z :=
  match r with
  | Ok _ => 0
  | Raise (SystemExit code) => code
  | Raise (Exception _) => 1
  end.

Definition os_path_exists : IO bool :=
  fun fs => (fs, Ok (match fs with Absent => false | _ => true end)).

(** [open('dados.json', 'r', encoding='utf-8')] and [f.read()] *)
Definition read_text : IO string :=
  fun fs =>
    match fs with
    | Text content => (fs, Ok content)
    | Absent => (fs, Raise (Exception "FileNotFoundError"))
    | Unreadable => (fs, Raise (Exception "OSError"))
    end.

Definition json_load : IO dict :=
  s <- read_text ;;
  match Json.loads s with
  | Some data => ret data
  | None => raise (Exception "JSONDecodeError")
  end.

(** What the operating system does with the write of [save_data]. *)
Inductive write_outcome : Type :=
| WriteOk                      (* the whole text is written *)
| OpenFails                    (* [open] raises, the file is as it was *)
| WriteFails (written : string). (* the file is cut, then writing raises *)

(** [with open('dados.json', 'w', encoding='utf-8') as f: json.dump(...)] *)
Definition json_dump (o : write_outcome) (obj : dict) : IO unit :=
  fun fs =>
    match o with
    | WriteOk => (Text (Json.dumps obj), Ok tt)
    | OpenFails => (fs, Raise (Exception "OSError"))
    | WriteFails written => (Text written, Raise (Exception "OSError"))
    end.

(** ** [load_existing_data], [save_data] *)

Definition load_existing_data : IO dict :=
  found <- try_except
             (exists_ <- os_path_exists ;;
              if exists_ : bool
              then (data <- json_load ;; ret (Some data))
              else ret None)
             (ret None) ;;
  match found with
  | Some data => ret data
  | None => ret []
  end.

Definition save_data (o : write_outcome) (data : dict) : IO bool :=
  try_except
    (let sorted_data := of_items (sorted_desc data) in
     json_dump o sorted_data ;;;
     ret true)
    (ret false).

(** The CountMap that the file holds: what [load_existing_data] answers. *)
Definition persisted (fs : file_state) : dict :=
  match load_existing_data fs with
  | (_, Ok data) => data
  | (_, Raise _) => []
  end.

(** ** [main] *)

(** What the run is given from outside. *)
Record Env : Type := {
  SHEET_ID : option string;              (* the environment variable *)
  download : string -> option DataFrame; (* [None]: the request, the
                                            temporary file or [read_csv]
                                            raised *)
  write : write_outcome
}.

Definition default_sheet_id : string :=
  "1Q7uu8xyc7qde84epVGSO8TJViuDO4mvUnie-dwul9q0".

(** [os.environ.get('SHEET_ID', default)] *)
Definition sheet_id (env : Env) : string :=
  match SHEET_ID env with
  | Some id => id
  | None => default_sheet_id
  end.

(** [get_sheet_data]: every exception of the body is caught and answered
    by [None]. *)
Definition get_sheet_data (env : Env) (id : string) : option DataFrame :=
  download env id.

(** [a / b] on integers.  The quotient is kept exact: Python rounds it to
    a float, and raises [OverflowError] when it is beyond the range of
    floats (about 1.8e308), which is not modelled. *)
Definition truediv (a b : Z) : result Q :=
  if b =? 0 then Raise (Exception "ZeroDivisionError")
  else Ok (Qmake (a * Z.sgn b) (Z.to_pos (Z.abs b))).

(** [sum(final_data.values())] *)
Definition total_inscricoes (final_data : dict) : Z :=
  fold_right Z.add 0 (values final_data).

(** [len([p for p, c in final_data.items() if c > 0])] *)
Definition total_paroquias (final_data : dict) : Z :=
  Z.of_nat (List.length (filter (fun item => 0 <? snd item) final_data)).

(** The final statistics: the total, the active parishes and, when there
    is one, the mean. *)
Definition statistics (final_data : dict) : result (Z * Z * option Q) :=
  let total := total_inscricoes final_data in
  let active := total_paroquias final_data in
  if 0 <? active then
    match truediv total active with
    | Ok mean => Ok (total, active, Some mean)
    | Raise e => Raise e
    end
  else Ok (total, active, None).

(** The data computed by this run. *)
Definition new_data (env : Env) : dict :=
  process_paroquia_data (get_sheet_data env (sheet_id env)).

Definition main (env : Env) : IO unit :=
  if negb (truthy (sheet_id env)) then exit 1
  else
    let new_data := new_data env in
    if negb (truthy_dict new_data) then exit 0
    else
      existing_data <- load_existing_data ;;
      let final_data := merge_data existing_data new_data in
      saved <- save_data (write env) final_data ;;
      if saved : bool then
        match statistics final_data with
        | Ok _ => ret tt
        | Raise e => raise e
        end
      else exit 1.

(** Successive runs, each one on the file the run before has left; the
    answer is [None] as soon as a run does not end with status 0. *)
Fixpoint runs (envs : list Env) (fs : file_state) : option file_state :=
  match envs with
  | [] => Some fs
  | env :: envs' =>
      let (fs', r) := main env fs in
      if exit_status r =? 0 then runs envs' fs' else None
  end.

(** ** Notions used to state further properties *)

(** [k in d] *)
Definition has_key (d : dict) (k : string) : bool :=
  match get d k with Some _ => true | None => false end.

(** The distinct elements of a list, each at the place where it is seen
    first. *)
Fixpoint first_seen (l : list string) : list string :=
  match l with
  | [] => []
  | p :: l' => p :: filter (fun q => negb (String.eqb p q)) (first_seen l')
  end.

(** A text that [json.load] rejects at its first character: behind the
    white space in front there is nothing, or a character with which no
    JSON value starts. *)
Definition value_start (c : ascii) : bool :=
  byte 0x7B c || byte 0x5B c || byte 0x22 c || byte 0x2D c
  || between 0x30 0x39 c
  || byte 0x6E c || byte 0x74 c || byte 0x66 c || byte 0x4E c || byte 0x49 c.

Definition json_rejected (s : string) : bool :=
  match Json.skip_ws s with
  | EmptyString => true
  | String c _ => negb (value_start c)
  end.

(** The files on which [Json.loads] is [json.load] itself: no file, a
    file that cannot be read, a text rejected at its first character,
    the text of a CountMap. *)
Definition exact_file (fs : file_state) : Prop :=
  match fs with
  | Absent | Unreadable => True
  | Text s => json_rejected s = true \/ exists d, Json.loads s = Some d
  end.

(** Among them, the files that hold no entry. *)
Definition holds_nothing (fs : file_state) : Prop :=
  match fs with
  | Absent | Unreadable => True
  | Text s => json_rejected s = true \/ Json.loads s = Some []
  end.

(** The bytes of a string. *)
Definition bytes : string -> list ascii := list_ascii_of_string.

(** A byte that no white-space character contains and that is no space
    itself: a printable ASCII character. *)
Definition printable (c : ascii) : Prop := (0x20 < code c < 0x80)%N.

(** * Properties *)

(** ** Dictionaries *)

Section DictFacts.

Implicit Types (d : dict) (k : string) (v : Z).

Lemma get_set_same d k v : get (set d k v) k = Some v.
Proof.
  induction d as [|[k' v'] d IH]; simpl.
  - now rewrite String.eqb_refl.
  - destruct (String.eqb k' k) eqn:E; simpl; rewrite E; auto.
Qed.

Lemma get_set_other d k k' v : k <> k' -> get (set d k v) k' = get d k'.
Proof.
  intros Hne. induction d as [|[k0 v0] d IH]; simpl.
  - apply String.eqb_neq in Hne. now rewrite Hne.
  - destruct (String.eqb k0 k) eqn:E; simpl.
    + apply String.eqb_eq in E. subst k0.
      apply String.eqb_neq in Hne. now rewrite Hne.
    + now rewrite IH.
Qed.

Lemma get_set d k k' v :
  get (set d k v) k' = if String.eqb k k' then Some v else get d k'.
Proof.
  destruct (String.eqb_spec k k') as [->|Hne].
  - apply get_set_same.
  - now apply get_set_other.
Qed.

Lemma set_get_same d k v : get d k = Some v -> set d k v = d.
Proof.
  induction d as [|[k' v'] d IH]; simpl; [discriminate|].
  destruct (String.eqb k' k); intros H.
  - now inversion H.
  - now rewrite IH.
Qed.

Lemma keys_set d k v k' :
  In k' (keys (set d k v)) <-> k' = k \/ In k' (keys d).
Proof.
  induction d as [|[k0 v0] d IH]; simpl.
  - intuition.
  - destruct (String.eqb_spec k0 k) as [->|Hne]; simpl.
    + intuition.
    + rewrite IH. intuition.
Qed.

Lemma get_None d k : get d k = None <-> ~ In k (keys d).
Proof.
  induction d as [|[k' v'] d IH]; simpl.
  - intuition.
  - destruct (String.eqb_spec k' k) as [->|Hne].
    + split; [discriminate|]. intros H. exfalso. auto.
    + rewrite IH. intuition.
Qed.

Lemma get_Some_In d k v : get d k = Some v -> In k (keys d).
Proof.
  intros H. destruct (in_dec string_dec k (keys d)) as [|Hn]; auto.
  apply get_None in Hn. congruence.
Qed.

Lemma In_keys_get d k : In k (keys d) -> exists v, get d k = Some v.
Proof.
  intros H. destruct (get d k) as [v|] eqn:E; eauto.
  apply get_None in E. contradiction.
Qed.

(** Appending a fresh key. *)
Lemma set_fresh d k v : ~ In k (keys d) -> set d k v = (d ++ [(k, v)])%list.
Proof.
  induction d as [|[k0 v0] d IH]; simpl; auto.
  intros H. destruct (String.eqb_spec k0 k) as [->|Hne].
  - exfalso. auto.
  - rewrite IH; auto.
Qed.

Lemma fold_set_wf (l : list (string * Z)) d :
  NoDup (keys d ++ keys l)%list ->
  fold_left (fun d kv => set d (fst kv) (snd kv)) l d = (d ++ l)%list.
Proof.
  revert d. induction l as [|[k v] l IH]; intros d H; simpl.
  - now rewrite List.app_nil_r.
  - rewrite set_fresh.
    + rewrite IH.
      * now rewrite <- List.app_assoc.
      * unfold keys in *. rewrite map_app. simpl. now rewrite <- List.app_assoc.
    + apply NoDup_remove_2 in H. intros Hin. apply H.
      apply in_or_app. now left.
Qed.

(** [dict(d.items())] is [d]. *)
Lemma of_items_wf d : dict_wf d -> of_items d = d.
Proof.
  intros H. unfold of_items. now rewrite fold_set_wf.
Qed.

Lemma wf_set d k v : dict_wf d -> dict_wf (set d k v).
Proof.
  unfold dict_wf. induction d as [|[k0 v0] d IH]; simpl; intros H.
  - constructor; [simpl; auto | constructor].
  - destruct (String.eqb_spec k0 k) as [->|Hne]; simpl; auto.
    inversion H; subst. constructor; auto.
    fold (keys (set d k v)). rewrite keys_set. intuition.
Qed.

End DictFacts.

(** The keys of a dict that is written out are distinct. *)
Ltac wf_concrete :=
  unfold dict_wf; simpl; repeat constructor; simpl; intuition discriminate.

(** ** [merge_data] *)

Arguments merge_step : simpl never.

Lemma merge_step_eq d k c :
  merge_step d (k, c) =
  set d k (match get d k with Some old => Z.max old c | None => c end).
Proof.
  unfold merge_step. now destruct (get d k).
Qed.

Lemma get_merge_step d k c k' :
  get (merge_step d (k, c)) k' =
  if String.eqb k k'
  then Some (match get d k with Some old => Z.max old c | None => c end)
  else get d k'.
Proof.
  unfold merge_step. destruct (get d k); now rewrite get_set.
Qed.

Lemma keys_merge_step d k c k' :
  In k' (keys (merge_step d (k, c))) <-> k' = k \/ In k' (keys d).
Proof.
  unfold merge_step. destruct (get d k); apply keys_set.
Qed.

Lemma keys_merge_data B : forall A k,
  In k (keys (merge_data A B)) <-> In k (keys A) \/ In k (keys B).
Proof.
  unfold merge_data.
  induction B as [|[k0 c0] B IH]; intros A k; simpl.
  - intuition.
  - rewrite IH, keys_merge_step. intuition.
Qed.

(** The value of every key after the merge. *)
Lemma get_merge_data B : forall A k,
  dict_wf B ->
  get (merge_data A B) k =
  match get A k, get B k with
  | Some a, Some b => Some (Z.max a b)
  | Some a, None => Some a
  | None, b => b
  end.
Proof.
  unfold merge_data, dict_wf.
  induction B as [|[k0 c0] B IH]; intros A k Hwf; simpl.
  - now destruct (get A k).
  - inversion Hwf as [|? ? Hnotin Hwf']; subst.
    rewrite IH by assumption. rewrite get_merge_step.
    destruct (String.eqb_spec k0 k) as [->|Hne].
    + apply get_None in Hnotin. rewrite Hnotin. now destruct (get A k).
    + reflexivity.
Qed.

(** A merged count is never below the fresh count. *)
Lemma merge_data_ge_new B : forall A k b,
  In (k, b) B -> exists m, get (merge_data A B) k = Some m /\ b <= m.
Proof.
  unfold merge_data.
  assert (Hmono : forall B A k m, get A k = Some m ->
            exists m', get (fold_left merge_step B A) k = Some m' /\ m <= m').
  { clear. induction B as [|[k0 c0] B IH]; intros A k m H; simpl.
    - exists m. split; [assumption | lia].
    - destruct (String.eqb_spec k0 k) as [->|Hne].
      + destruct (IH (merge_step A (k, c0)) k (Z.max m c0)) as (m' & H1 & H2).
        * rewrite get_merge_step, String.eqb_refl, H. reflexivity.
        * exists m'. split; [assumption | lia].
      + apply IH. rewrite get_merge_step.
        apply String.eqb_neq in Hne. now rewrite Hne. }
  induction B as [|[k0 c0] B IH]; intros A k b Hin; simpl.
  - contradiction.
  - destruct Hin as [Heq | Hin].
    + inversion Heq; subst.
      destruct (Hmono B (merge_step A (k, b)) k
                  (match get A k with Some old => Z.max old b | None => b end))
        as (m' & H1 & H2).
      * now rewrite get_merge_step, String.eqb_refl.
      * exists m'. split; [assumption|]. destruct (get A k); lia.
    + now apply IH.
Qed.

(** C1. For all CountMaps A and B: every key of A and every key of B is a
    key of [merge_data A B]; a key of both has the maximum of its two
    counts; a key of A alone keeps its count. *)
Theorem merge_data_keys_max (A B : dict) :
  dict_wf B ->
  (forall k, In k (keys A) \/ In k (keys B) -> In k (keys (merge_data A B)))
  /\ (forall k a b, get A k = Some a -> get B k = Some b ->
        get (merge_data A B) k = Some (Z.max a b))
  /\ (forall k a, get A k = Some a -> get B k = None ->
        get (merge_data A B) k = Some a).
Proof.
  intros Hwf. repeat split.
  - intros k H. now apply keys_merge_data.
  - intros k a b Ha Hb. now rewrite get_merge_data, Ha, Hb.
  - intros k a Ha Hb. now rewrite get_merge_data, Ha, Hb.
Qed.

Lemma merge_data_keys_max_witness :
  let A := [("St. Mary", 5); ("St. Joseph", 2)] in
  let B := [("St. Mary", 2); ("St. Anne", 1)] in
  merge_data A B = [("St. Mary", 5); ("St. Joseph", 2); ("St. Anne", 1)]
  /\ get (merge_data A B) "St. Mary" = Some (Z.max 5 2)
  /\ get (merge_data A B) "St. Joseph" = Some 2.
Proof.
  intros A B.
  assert (Hwf : dict_wf B).
  { unfold B. wf_concrete. }
  destruct (merge_data_keys_max A B Hwf) as (_ & Hmax & Honly).
  split; [reflexivity|]. split.
  - apply Hmax; reflexivity.
  - apply Honly; reflexivity.
Defined.

(** C5. [merge(A, {}) == A], [merge({}, B) == B] and
    [merge(merge(A, B), B) == merge(A, B)]; the three hold with the
    order of the items too. *)
Theorem merge_data_laws (A B : dict) :
  merge_data A [] = A
  /\ (dict_wf B -> merge_data [] B = B)
  /\ merge_data (merge_data A B) B = merge_data A B.
Proof.
  split; [reflexivity|]. split.
  - intros Hwf. unfold merge_data.
    assert (H : forall l d, NoDup (keys d ++ keys l)%list ->
                fold_left merge_step l d = (d ++ l)%list).
    { clear. induction l as [|[k v] l IH]; intros d H; simpl.
      - now rewrite List.app_nil_r.
      - assert (Hk : ~ In k (keys d)).
        { apply NoDup_remove_2 in H. intros Hin. apply H.
          apply in_or_app. now left. }
        pose proof Hk as Hg. apply get_None in Hg.
        rewrite merge_step_eq, Hg.
        rewrite set_fresh by assumption.
        rewrite IH.
        + now rewrite <- List.app_assoc.
        + unfold keys in *. rewrite map_app. simpl. now rewrite <- List.app_assoc. }
    now rewrite H.
  - assert (H : forall l d,
              (forall k b, In (k, b) l ->
                 exists m, get d k = Some m /\ b <= m) ->
              fold_left merge_step l d = d).
    { clear. induction l as [|[k v] l IH]; intros d H; simpl; auto.
      destruct (H k v) as (m & Hm & Hle); [now left|].
      rewrite merge_step_eq, Hm. replace (Z.max m v) with m by lia.
      rewrite set_get_same by assumption.
      apply IH. intros k' b' Hin. apply H. now right. }
    unfold merge_data at 1. apply H.
    intros k b Hin. now apply merge_data_ge_new.
Qed.

Lemma merge_data_laws_witness :
  let B := [("St. Mary", 2); ("St. Anne", 1)] in
  merge_data [] B = B.
Proof.
  intros B.
  apply (proj1 (proj2 (merge_data_laws [] B))).
  unfold B. wf_concrete.
Defined.

(** ** The tabulator *)

Lemma Forall_values_set (P : Z -> Prop) (d : dict) k v :
  Forall P (values d) -> P v -> Forall P (values (set d k v)).
Proof.
  unfold values. induction d as [|[k0 v0] d IH]; simpl; intros Hd Hv.
  - auto.
  - inversion Hd; subst.
    destruct (String.eqb k0 k); simpl; constructor; auto.
Qed.

Lemma get_In (d : dict) k v : get d k = Some v -> In (k, v) d.
Proof.
  induction d as [|[k0 v0] d IH]; simpl; [discriminate|].
  destruct (String.eqb_spec k0 k) as [->|Hne]; intros H.
  - inversion H. now left.
  - right. auto.
Qed.

Lemma get_Forall_values (P : Z -> Prop) (d : dict) k v :
  Forall P (values d) -> get d k = Some v -> P v.
Proof.
  intros Hall Hget. apply get_In in Hget.
  unfold values in Hall. rewrite Forall_forall in Hall.
  apply Hall. now apply (in_map snd) in Hget.
Qed.

Lemma Counter_positive (l : list string) :
  Forall (fun c => 1 <= c) (values (Counter l)).
Proof.
  unfold Counter.
  assert (H : forall l d, Forall (fun c => 1 <= c) (values d) ->
              Forall (fun c => 1 <= c) (values (fold_left count_elem l d))).
  { clear. induction l as [|p l IH]; intros d Hd; simpl; auto.
    apply IH. unfold count_elem. apply Forall_values_set; auto.
    destruct (get d p) as [n|] eqn:E; [|lia].
    pose proof (get_Forall_values _ _ _ _ Hd E). simpl in *. lia. }
  apply H. constructor.
Qed.

Lemma occurrences_nonneg p l : 0 <= occurrences p l.
Proof.
  induction l as [|q l IH]; simpl; [lia|]. destruct (String.eqb q p); lia.
Qed.

Lemma occurrences_In p l : In p l <-> 0 < occurrences p l.
Proof.
  induction l as [|q l IH]; simpl.
  - split; [contradiction | lia].
  - pose proof (occurrences_nonneg p l).
    destruct (String.eqb_spec q p) as [->|Hne].
    + split; [lia | auto].
    + rewrite <- IH. intuition.
Qed.

(** [Counter] counts: a key for each distinct element, with the number
    of its occurrences. *)
Lemma get_Counter (l : list string) p :
  get (Counter l) p =
  if 0 <? occurrences p l then Some (occurrences p l) else None.
Proof.
  unfold Counter.
  assert (H : forall l d,
            get (fold_left count_elem l d) p =
            match get d p with
            | Some n => Some (n + occurrences p l)
            | None => if 0 <? occurrences p l
                      then Some (occurrences p l) else None
            end).
  { clear. induction l as [|q l IH]; intros d; simpl.
    - destruct (get d p); [f_equal; lia | reflexivity].
    - rewrite IH. unfold count_elem. rewrite get_set.
      pose proof (occurrences_nonneg p l).
      destruct (String.eqb_spec q p) as [->|Hne].
      + destruct (get d p); [f_equal; lia|].
        replace (0 <? 1 + occurrences p l) with true
          by (symmetry; apply Z.ltb_lt; lia).
        reflexivity.
      + reflexivity. }
  now rewrite H.
Qed.

Lemma occurrences_filter (f : string -> bool) p l :
  occurrences p (filter f l) = if f p then occurrences p l else 0.
Proof.
  induction l as [|q l IH]; simpl.
  - now destruct (f p).
  - destruct (f q) eqn:Eq; simpl; rewrite IH.
    + destruct (String.eqb_spec q p) as [->|Hne].
      * now rewrite Eq.
      * destruct (f p); lia.
    + destruct (String.eqb_spec q p) as [->|Hne].
      * now rewrite Eq.
      * destruct (f p); lia.
Qed.

(** What the tabulator does: a label is counted, verbatim, if and only if
    it passes [keep]. *)
Lemma get_tabulate (labels : list string) p :
  get (tabulate labels) p =
  if keep p && (0 <? occurrences p labels)
  then Some (occurrences p labels) else None.
Proof.
  unfold tabulate. rewrite get_Counter, occurrences_filter.
  destruct (keep p); reflexivity.
Qed.

Lemma wf_Counter (l : list string) : dict_wf (Counter l).
Proof.
  unfold Counter.
  assert (H : forall l d, dict_wf d -> dict_wf (fold_left count_elem l d)).
  { clear. induction l as [|p l IH]; intros d Hd; simpl; auto.
    apply IH. now apply wf_set. }
  apply H. constructor.
Qed.

Lemma process_paroquia_data_positive (df : option DataFrame) :
  Forall (fun c => 1 <= c) (values (process_paroquia_data df)).
Proof.
  unfold process_paroquia_data.
  destruct df as [df|]; [|constructor].
  destruct (df_empty df); [constructor|].
  destruct (paroquia_column df) as [col|]; [|constructor].
  destruct (is_series df col); [|constructor].
  apply Counter_positive.
Qed.

Lemma wf_process_paroquia_data (df : option DataFrame) :
  dict_wf (process_paroquia_data df).
Proof.
  unfold process_paroquia_data.
  destruct df as [df|]; [|constructor].
  destruct (df_empty df); [constructor|].
  destruct (paroquia_column df) as [col|]; [|constructor].
  destruct (is_series df col); [|constructor].
  apply wf_Counter.
Qed.

(** ** The final statistics *)

Lemma total_paroquias_positive (d : dict) k v :
  get d k = Some v -> 0 < v -> 0 < total_paroquias d.
Proof.
  intros Hget Hv. apply get_In in Hget. unfold total_paroquias.
  assert (Hin : In (k, v) (filter (fun item => 0 <? snd item) d)).
  { apply filter_In. split; [assumption|]. simpl. now apply Z.ltb_lt. }
  destruct (filter (fun item => 0 <? snd item) d); [contradiction|].
  simpl List.length. lia.
Qed.

(** The guard in front of the division: the divisor is never 0, and with
    the exact quotient of the model [statistics] always answers. *)
Lemma statistics_total (d : dict) :
  exists total mean, statistics d = Ok (total, total_paroquias d, mean).
Proof.
  unfold statistics, truediv.
  destruct (0 <? total_paroquias d) eqn:E.
  - apply Z.ltb_lt in E.
    destruct (total_paroquias d =? 0) eqn:E0; [apply Z.eqb_eq in E0; lia|].
    eauto.
  - eauto.
Qed.

(** C3. The tabulator on the labels "St. Mary", "St. Mary", "St. Anne":
    line 82 keeps a label only if it contains the header word, so all
    three are discarded and the answer is the empty map, not St. Mary 2
    and St. Anne 1; and a header row that is still in the data is kept
    and counted, not discarded. *)
Theorem tabulate_keeps_header_word_only :
  tabulate ["St. Mary"; "St. Mary"; "St. Anne"] = []
  /\ tabulate ["Qual sua Paróquia?"; "Paróquia A"; "St. Mary"; "Paróquia A"]
     = [("Qual sua Paróquia?", 1); ("Paróquia A", 2)].
Proof.
  split; reflexivity.
Qed.

(** C10. Every count of the tabulator's output is at least 1; so when the
    fresh data is not empty, the merged data has a parish with a positive
    count, and the statistics are computed with the mean, the division
    having a positive divisor. *)
Theorem fresh_counts_positive_mean_defined :
  (forall labels, Forall (fun c => 1 <= c) (values (tabulate labels)))
  /\ (forall df, Forall (fun c => 1 <= c) (values (process_paroquia_data df)))
  /\ (forall df existing_data,
        process_paroquia_data df <> [] ->
        let final_data := merge_data existing_data (process_paroquia_data df) in
        0 < total_paroquias final_data
        /\ exists mean,
             truediv (total_inscricoes final_data) (total_paroquias final_data)
             = Ok mean
             /\ statistics final_data
                = Ok (total_inscricoes final_data, total_paroquias final_data,
                      Some mean)).
Proof.
  split; [intros; apply Counter_positive|].
  split; [apply process_paroquia_data_positive|].
  intros df existing_data Hne final_data.
  assert (Hpos : 0 < total_paroquias final_data).
  { pose proof (process_paroquia_data_positive df) as Hall.
    destruct (process_paroquia_data df) as [|[k b] new] eqn:E; [congruence|].
    destruct (merge_data_ge_new ((k, b) :: new) existing_data k b)
      as (m & Hm & Hle); [now left|].
    inversion Hall; subst. simpl in *.
    apply (total_paroquias_positive _ k m); [assumption | lia]. }
  split; [assumption|].
  unfold statistics, truediv.
  replace (0 <? total_paroquias final_data) with true
    by (symmetry; now apply Z.ltb_lt).
  replace (total_paroquias final_data =? 0) with false
    by (symmetry; apply Z.eqb_neq; lia).
  eauto.
Qed.

Lemma fresh_counts_positive_mean_defined_witness :
  let df : DataFrame :=
    [("Nome", [Some "Ana"; Some "Rui"; Some "Lia"]);
     ("Qual sua Paróquia?",
      [Some "Paróquia Santa Rita"; None; Some "Paróquia Santa Rita"])] in
  let final_data :=
    merge_data [("Paróquia São José", 0)] (process_paroquia_data (Some df)) in
  0 < total_paroquias final_data
  /\ exists mean,
       truediv (total_inscricoes final_data) (total_paroquias final_data)
       = Ok mean
       /\ statistics final_data
          = Ok (total_inscricoes final_data, total_paroquias final_data,
                Some mean).
Proof.
  intros df final_data.
  apply (proj2 (proj2 fresh_counts_positive_mean_defined) (Some df)).
  vm_compute. discriminate.
Defined.

(** ** Stable sort by descending count *)

Lemma insert_desc_perm x l : Permutation (insert_desc x l) (x :: l).
Proof.
  induction l as [|y l IH]; simpl; auto.
  destruct (snd y <=? snd x); auto.
  rewrite IH. apply perm_swap.
Qed.

Lemma sorted_desc_perm l : Permutation (sorted_desc l) l.
Proof.
  induction l as [|x l IH]; simpl; auto.
  rewrite insert_desc_perm. now constructor.
Qed.

Lemma insert_desc_sorted x l :
  StronglySorted count_ge l -> StronglySorted count_ge (insert_desc x l).
Proof.
  induction 1 as [|y l Hl IH Hy]; simpl.
  - repeat constructor.
  - destruct (snd y <=? snd x) eqn:E.
    + apply Z.leb_le in E. constructor; [now constructor|].
      constructor; [exact E|].
      eapply Forall_impl; [|exact Hy]. unfold count_ge. intros; lia.
    + apply Z.leb_gt in E. constructor; [assumption|].
      eapply Permutation_Forall; [symmetry; apply insert_desc_perm|].
      constructor; [unfold count_ge; lia | assumption].
Qed.

Lemma sorted_desc_sorted l : StronglySorted count_ge (sorted_desc l).
Proof.
  induction l as [|x l IH]; simpl; [constructor|].
  now apply insert_desc_sorted.
Qed.

(** Stability: the items of one count come out in the order they went in. *)
Lemma insert_desc_stable c x l :
  filter (fun item => snd item =? c) (insert_desc x l)
  = filter (fun item => snd item =? c) (x :: l).
Proof.
  induction l as [|y l IH]; [reflexivity|].
  cbn [insert_desc]. destruct (snd y <=? snd x) eqn:E; [reflexivity|].
  apply Z.leb_gt in E. cbn [filter] in *. rewrite IH.
  destruct (snd y =? c) eqn:Ey; [|reflexivity].
  apply Z.eqb_eq in Ey.
  replace (snd x =? c) with false by (symmetry; apply Z.eqb_neq; lia).
  reflexivity.
Qed.

Lemma sorted_desc_stable c l :
  filter (fun item => snd item =? c) (sorted_desc l)
  = filter (fun item => snd item =? c) l.
Proof.
  induction l as [|x l IH]; [reflexivity|].
  cbn [sorted_desc fold_right]. rewrite insert_desc_stable.
  cbn [filter]. fold (sorted_desc l). now rewrite IH.
Qed.

Lemma wf_sorted_desc d : dict_wf d -> dict_wf (sorted_desc d).
Proof.
  unfold dict_wf, keys. intros H.
  eapply Permutation_NoDup; [|exact H].
  apply Permutation_map. symmetry. apply sorted_desc_perm.
Qed.

Lemma get_perm (d d' : dict) k :
  dict_wf d -> Permutation d d' -> get d k = get d' k.
Proof.
  intros Hwf Hp.
  assert (Hwf' : dict_wf d').
  { unfold dict_wf, keys in *. eapply Permutation_NoDup; [|exact Hwf].
    now apply Permutation_map. }
  assert (Huniq : forall e v, dict_wf e -> In (k, v) e -> get e k = Some v).
  { clear. unfold dict_wf. induction e as [|[k0 v0] e IH]; simpl; intros v Hwf Hin.
    - contradiction.
    - inversion Hwf; subst. destruct Hin as [Heq|Hin].
      + inversion Heq; subst. now rewrite String.eqb_refl.
      + destruct (String.eqb_spec k0 k) as [->|Hne]; auto.
        exfalso. apply (in_map fst) in Hin. auto. }
  destruct (get d k) as [v|] eqn:E.
  - symmetry. apply Huniq; auto.
    eapply Permutation_in; [exact Hp|]. now apply get_In.
  - destruct (get d' k) as [v'|] eqn:E'; auto.
    apply get_In in E'. apply Permutation_sym in Hp.
    eapply Permutation_in in E'; [|exact Hp].
    apply Huniq in E'; auto. congruence.
Qed.

(** ** [json.dump] then [json.load] *)

Module JsonFacts.
Import Json.

Lemma app_assoc (a b c : string) : (a ++ b) ++ c = a ++ (b ++ c).
Proof.
  induction a as [|x a IH]; simpl; [reflexivity | now rewrite IH].
Qed.

Lemma length_app (a b : string) :
  String.length (a ++ b) = (String.length a + String.length b)%nat.
Proof.
  induction a as [|x a IH]; simpl; [reflexivity | now rewrite IH].
Qed.

(** One escaped character is read back as that character. *)
Lemma scanstring_escape_char c s :
  scanstring (escape_char c ++ s) = chunk (String c EmptyString) (scanstring s).
Proof.
  destruct c as [[] [] [] [] [] [] [] []]; reflexivity.
Qed.

Lemma scanstring_escape k rest :
  scanstring (escape k ++ String dquote rest) = Some (k, rest).
Proof.
  induction k as [|c k IH]; [reflexivity|].
  cbn [escape]. rewrite app_assoc, scanstring_escape_char, IH.
  reflexivity.
Qed.

Lemma scan_digits_string_of_uint u rest :
  no_digit_ahead rest ->
  scan_digits (NilEmpty.string_of_uint u ++ rest) = (u, rest).
Proof.
  intros Hrest.
  induction u; cbn [NilEmpty.string_of_uint append];
    try (cbn [scan_digits]; rewrite IHu; reflexivity).
  destruct rest as [|c r]; [reflexivity|].
  simpl in Hrest. cbn [scan_digits]. now rewrite Hrest.
Qed.

(** The digits of a positive number start with a digit from 1 to 9. *)
Lemma to_uint_head (p : positive) :
  exists c r, NilEmpty.string_of_uint (Pos.to_uint p) = String c r
              /\ between 0x31 0x39 c = true.
Proof.
  pose proof (Unsigned.to_uint_nonzero p) as Hnz.
  pose proof (Unsigned.to_of (Pos.to_uint p)) as Hnorm.
  rewrite Unsigned.of_to in Hnorm. simpl in Hnorm.
  destruct (Pos.to_uint p) as [|u|u|u|u|u|u|u|u|u|u] eqn:E;
    try (simpl; eexists; eexists; split; [reflexivity | reflexivity]).
  - exfalso. symmetry in Hnorm. revert Hnorm. apply unorm_nonnil.
  - exfalso. rewrite unorm_D0 in Hnorm.
    assert (Hu : u <> Decimal.Nil -> False).
    { intros Hu. pose proof (nb_digits_unorm u Hu) as Hn.
      rewrite <- Hnorm in Hn. simpl in Hn. lia. }
    destruct u; try (apply Hu; discriminate).
    now apply Hnz.
Qed.

Lemma scan_nat_to_uint (p : positive) rest :
  no_digit_ahead rest ->
  scan_nat (NilEmpty.string_of_uint (Pos.to_uint p) ++ rest)
  = Some (Pos.to_uint p, rest).
Proof.
  intros Hrest.
  pose proof (scan_digits_string_of_uint (Pos.to_uint p) rest Hrest) as Hd.
  destruct (to_uint_head p) as (c & r & Heq & Hc).
  rewrite Heq in *. cbn [append scan_nat] in *.
  replace (byte 0x30 c) with false.
  - now rewrite Hc, Hd.
  - unfold between, byte in *. apply andb_prop in Hc. destruct Hc as [Hc _].
    apply N.leb_le in Hc. symmetry. apply N.eqb_neq. lia.
Qed.

Lemma string_of_uint_to_uint (p : positive) :
  NilZero.string_of_uint (Pos.to_uint p)
  = NilEmpty.string_of_uint (Pos.to_uint p).
Proof.
  unfold NilZero.string_of_uint.
  pose proof (Unsigned.to_uint_nonnil p).
  now destruct (Pos.to_uint p).
Qed.

(** An integer is read back from its decimal text. *)
Lemma scan_int_repr (z : Z) rest :
  no_digit_ahead rest -> scan_int (int_repr z ++ rest) = Some (z, rest).
Proof.
  intros Hrest. unfold int_repr.
  destruct z as [|p|p]; [reflexivity| |].
  - cbn [Z.to_int NilZero.string_of_int]. rewrite string_of_uint_to_uint.
    pose proof (scan_nat_to_uint p rest Hrest) as Hs.
    destruct (to_uint_head p) as (c & r & Heq & Hc).
    unfold scan_int. rewrite Heq in *. cbn [append] in *.
    replace (byte 0x2D c) with false.
    + rewrite Hs. f_equal. f_equal.
      change (Z.of_int (Z.to_int (Z.pos p)) = Z.pos p). apply DecimalZ.of_to.
    + unfold between, byte in *. apply andb_prop in Hc. destruct Hc as [Hc _].
      apply N.leb_le in Hc. symmetry. apply N.eqb_neq. lia.
  - cbn [Z.to_int NilZero.string_of_int]. rewrite string_of_uint_to_uint.
    cbn [append scan_int]. change (byte 0x2D "-") with true. cbv iota.
    rewrite (scan_nat_to_uint p rest Hrest). f_equal. f_equal.
    change (Z.of_int (Z.to_int (Z.neg p)) = Z.neg p). apply DecimalZ.of_to.
Qed.

Lemma int_repr_head (z : Z) :
  exists c r, int_repr z = String c r /\ is_ws c = false.
Proof.
  unfold int_repr. destruct z as [|p|p].
  - now exists "0"%char, EmptyString.
  - cbn [Z.to_int NilZero.string_of_int]. rewrite string_of_uint_to_uint.
    destruct (to_uint_head p) as (c & r & Heq & Hc).
    exists c, r. split; [assumption|].
    unfold between, is_ws, byte in *.
    apply andb_prop in Hc. destruct Hc as [Hc _]. apply N.leb_le in Hc.
    repeat (apply orb_false_intro); apply N.eqb_neq; lia.
  - now eexists "-"%char, _.
Qed.

Lemma skip_ws_int_repr (z : Z) rest :
  skip_ws (int_repr z ++ rest) = int_repr z ++ rest.
Proof.
  destruct (int_repr_head z) as (c & r & -> & Hc).
  cbn [append skip_ws]. now rewrite Hc.
Qed.

Lemma encode_more_cons k v items tail :
  encode_more ((k, v) :: items) ++ String nl (String "}" tail)
  = String "," (String nl (String " " (String " "
      (String dquote (member_text k v items tail))))).
Proof.
  unfold member_text, encode_item, encode_basestring. cbn [encode_more fst snd].
  unfold encode_item, encode_basestring, newline_indent. cbn [fst snd].
  cbn [append]. repeat rewrite app_assoc. cbn [append]. reflexivity.
Qed.

Lemma no_digit_ahead_more items tail :
  no_digit_ahead (encode_more items ++ String nl (String "}" tail)).
Proof.
  destruct items as [|[k v] items]; [reflexivity|].
  rewrite encode_more_cons. reflexivity.
Qed.

(** The tests on the characters that [dumps] puts between the members. *)
Ltac known_chars :=
  change (is_ws " ") with true; change (is_ws nl) with true;
  change (is_ws ":") with false; change (is_ws ",") with false;
  change (is_ws "{") with false; change (is_ws "}") with false;
  change (is_ws dquote) with false;
  change (byte 0x3A ":") with true; change (byte 0x7D ",") with false;
  change (byte 0x2C ",") with true; change (byte 0x7D "}") with true;
  change (byte 0x7D dquote) with false; change (byte 0x22 dquote) with true;
  change (byte 0x7B "{") with true; cbv iota.

Ltac json_step := cbn [append skip_ws]; known_chars.

Lemma JSONObject_loop_member items : forall fuel k v pairs tail,
  (List.length items < fuel)%nat ->
  JSONObject_loop fuel (member_text k v items tail) pairs
  = Some (fold_left (fun d kv => set d (fst kv) (snd kv)) items
            (set pairs k v), tail).
Proof.
  induction items as [|[k' v'] items IH]; intros fuel k v pairs tail Hfuel;
    (destruct fuel as [|fuel]; [simpl in Hfuel; lia|]);
    unfold member_text; cbn [JSONObject_loop];
    rewrite scanstring_escape; do 2 json_step;
    rewrite skip_ws_int_repr.
  - rewrite scan_int_repr by reflexivity. do 2 json_step. reflexivity.
  - rewrite scan_int_repr by apply no_digit_ahead_more.
    rewrite encode_more_cons. do 5 json_step.
    rewrite IH by (simpl in Hfuel; lia). reflexivity.
Qed.

Lemma length_encode_more items tail :
  (List.length items < String.length (encode_more items ++ tail) + 1)%nat.
Proof.
  induction items as [|[k v] items IH]; simpl; [lia|].
  repeat rewrite length_app in *. lia.
Qed.

(** What [json.dump] writes, [json.load] reads back. *)
Lemma loads_dumps (d : dict) : loads (dumps d) = Some (of_items d).
Proof.
  destruct d as [|[k v] items]; [reflexivity|].
  unfold dumps, encode_item, encode_basestring, newline_indent.
  cbn [fst snd append]. unfold loads. json_step.
  unfold JSONObject. do 4 json_step.
  repeat rewrite app_assoc. cbn [append].
  change (escape k ++ String dquote (String ":" (String " "
            (int_repr v ++ encode_more items ++ String nl "}"))))
    with (member_text k v items EmptyString).
  rewrite JSONObject_loop_member.
  - reflexivity.
  - pose proof (length_encode_more items (String nl "}")) as Hlen.
    unfold member_text. cbn [append].
    repeat (rewrite length_app in * || cbn [String.length] in * ). lia.
Qed.

Lemma loads_dumps_wf (d : dict) : dict_wf d -> loads (dumps d) = Some d.
Proof.
  intros Hwf. now rewrite loads_dumps, of_items_wf.
Qed.

End JsonFacts.

(** ** The store *)

Ltac destruct_match_in H :=
  repeat match type of H with
         | match ?x with _ => _ end = _ => destruct x eqn:?; try discriminate
         end.

Lemma JSONObject_loop_wf fuel : forall s pairs d rest,
  dict_wf pairs -> Json.JSONObject_loop fuel s pairs = Some (d, rest) ->
  dict_wf d.
Proof.
  induction fuel as [|fuel IH]; intros s pairs d rest Hwf H;
    cbn [Json.JSONObject_loop] in H; [discriminate|].
  destruct_match_in H.
  - inversion H; subst. now apply wf_set.
  - eapply IH; [|exact H]. now apply wf_set.
Qed.

(** [json.load] answers a dict: its keys are distinct. *)
Lemma loads_wf s d : Json.loads s = Some d -> dict_wf d.
Proof.
  unfold Json.loads. intros H.
  destruct (Json.skip_ws s) as [|c r]; [discriminate|].
  destruct (byte 0x7B c); [|discriminate].
  destruct (Json.JSONObject r) as [[obj rest]|] eqn:E; [|discriminate].
  destruct (Json.skip_ws rest); [|discriminate].
  inversion H; subst. unfold Json.JSONObject in E.
  destruct_match_in E.
  - inversion E; subst. constructor.
  - eapply JSONObject_loop_wf; [|exact E]. constructor.
Qed.

(** [load_existing_data] always answers, and leaves the file alone. *)
Lemma load_existing_data_eq (fs : file_state) :
  load_existing_data fs = (fs, Ok (persisted fs)).
Proof.
  unfold persisted.
  destruct fs as [| |s]; try reflexivity.
  unfold load_existing_data, bind, try_except, os_path_exists, json_load,
    bind, read_text.
  destruct (Json.loads s); reflexivity.
Qed.

Lemma persisted_Text s :
  persisted (Text s) = match Json.loads s with Some d => d | None => [] end.
Proof.
  unfold persisted, load_existing_data, bind, try_except, os_path_exists,
    json_load, bind, read_text.
  destruct (Json.loads s); reflexivity.
Qed.

Lemma wf_persisted fs : dict_wf (persisted fs).
Proof.
  destruct fs as [| |s]; try constructor.
  rewrite persisted_Text. destruct (Json.loads s) eqn:E; [|constructor].
  eapply loads_wf; eassumption.
Qed.

Lemma save_data_WriteOk (data : dict) (fs : file_state) :
  save_data WriteOk data fs
  = (Text (Json.dumps (of_items (sorted_desc data))), Ok true).
Proof. reflexivity. Qed.

Lemma save_data_not_ok o data fs :
  o <> WriteOk -> exists fs', save_data o data fs = (fs', Ok false).
Proof.
  destruct o; intros H; [congruence| |]; eexists; reflexivity.
Qed.

Lemma wf_merge_data B : forall A, dict_wf A -> dict_wf (merge_data A B).
Proof.
  unfold merge_data. induction B as [|[k c] B IH]; intros A H; simpl; auto.
  apply IH. rewrite merge_step_eq. now apply wf_set.
Qed.

Lemma persisted_after_save (data : dict) :
  dict_wf data ->
  persisted (Text (Json.dumps (of_items (sorted_desc data)))) = sorted_desc data.
Proof.
  intros Hwf. rewrite persisted_Text.
  rewrite of_items_wf by now apply wf_sorted_desc.
  rewrite JsonFacts.loads_dumps_wf by now apply wf_sorted_desc.
  reflexivity.
Qed.

Lemma sorted_desc_dict_eq (data : dict) :
  dict_wf data -> dict_eq (sorted_desc data) data.
Proof.
  intros Hwf k. symmetry. apply get_perm; [assumption|].
  symmetry. apply sorted_desc_perm.
Qed.

(** C6. Saving a CountMap and loading it again gives the same mapping:
    every key with its count, the order apart. *)
Theorem save_then_load_same_mapping (M : dict) (fs : file_state) :
  dict_wf M ->
  exists fs' M',
    (save_data WriteOk M ;;; load_existing_data) fs = (fs', Ok M')
    /\ save_data WriteOk M fs = (fs', Ok true)
    /\ load_existing_data fs' = (fs', Ok M')
    /\ dict_eq M' M.
Proof.
  intros Hwf.
  exists (Text (Json.dumps (of_items (sorted_desc M)))), (sorted_desc M).
  assert (Hload : load_existing_data (Text (Json.dumps (of_items (sorted_desc M))))
                  = (Text (Json.dumps (of_items (sorted_desc M))),
                     Ok (sorted_desc M))).
  { rewrite load_existing_data_eq. now rewrite persisted_after_save. }
  split; [|split; [|split]].
  - unfold bind. rewrite save_data_WriteOk. exact Hload.
  - apply save_data_WriteOk.
  - exact Hload.
  - now apply sorted_desc_dict_eq.
Qed.

Lemma save_then_load_same_mapping_witness :
  let M := [("St. Joseph", 2); ("St. Mary", 5); ("São José", 0)] in
  exists fs' M',
    (save_data WriteOk M ;;; load_existing_data) Absent = (fs', Ok M')
    /\ save_data WriteOk M Absent = (fs', Ok true)
    /\ load_existing_data fs' = (fs', Ok M')
    /\ dict_eq M' M.
Proof.
  intros M. apply (save_then_load_same_mapping M Absent).
  unfold M. wf_concrete.
Defined.

(** C7. What [save_data] writes are the items in the order of
    non-increasing count, the items of equal count in the order of the
    input, and nothing of the file's prior content is left. *)
Theorem save_data_writes_sorted (data : dict) (fs : file_state) :
  dict_wf data ->
  let written := sorted_desc data in
  save_data WriteOk data fs = (Text (Json.dumps written), Ok true)
  /\ Json.loads (Json.dumps written) = Some written
  /\ StronglySorted count_ge written
  /\ (forall c, filter (fun item => snd item =? c) written
                = filter (fun item => snd item =? c) data)
  /\ Permutation written data.
Proof.
  intros Hwf written. unfold written.
  split; [|split; [|split; [|split]]].
  - rewrite save_data_WriteOk, of_items_wf by now apply wf_sorted_desc.
    reflexivity.
  - apply JsonFacts.loads_dumps_wf. now apply wf_sorted_desc.
  - apply sorted_desc_sorted.
  - intros c. apply sorted_desc_stable.
  - apply sorted_desc_perm.
Qed.

Lemma save_data_writes_sorted_witness :
  let data := [("St. Anne", 1); ("St. Mary", 5); ("St. Joseph", 2);
               ("St. Luke", 5); ("St. Mark", 1)] in
  let written := sorted_desc data in
  written = [("St. Mary", 5); ("St. Luke", 5); ("St. Joseph", 2);
             ("St. Anne", 1); ("St. Mark", 1)]
  /\ save_data WriteOk data (Text "{}") = (Text (Json.dumps written), Ok true)
  /\ StronglySorted count_ge written.
Proof.
  intros data written.
  assert (Hwf : dict_wf data).
  { unfold data. wf_concrete. }
  destruct (save_data_writes_sorted data (Text "{}") Hwf)
    as (Hsave & _ & Hsorted & _).
  split; [reflexivity|]. split; assumption.
Defined.

(** C9. A file that is missing, that cannot be read or that cannot be
    parsed is answered by the empty CountMap; [load_existing_data] never
    raises and never ends the process, whatever the file. *)
Theorem load_existing_data_never_fatal :
  (forall fs, exists data, load_existing_data fs = (fs, Ok data))
  /\ load_existing_data Absent = (Absent, Ok [])
  /\ load_existing_data Unreadable = (Unreadable, Ok [])
  /\ (forall s, Json.loads s = None ->
        load_existing_data (Text s) = (Text s, Ok [])).
Proof.
  split; [intros fs; eexists; apply load_existing_data_eq|].
  split; [reflexivity|]. split; [reflexivity|].
  intros s H. rewrite load_existing_data_eq, persisted_Text, H. reflexivity.
Qed.

Lemma load_existing_data_never_fatal_witness :
  load_existing_data (Text "{ not json") = (Text "{ not json", Ok []).
Proof.
  apply (proj2 (proj2 (proj2 load_existing_data_never_fatal))).
  reflexivity.
Defined.

(** ** [main] *)

Lemma main_no_sheet_id env fs :
  truthy (sheet_id env) = false -> main env fs = (fs, Raise (SystemExit 1)).
Proof.
  intros H. unfold main. now rewrite H.
Qed.

Lemma main_no_new_data env fs :
  truthy (sheet_id env) = true -> new_data env = [] ->
  main env fs = (fs, Raise (SystemExit 0)).
Proof.
  intros Hid Hnew. unfold main. now rewrite Hid, Hnew.
Qed.

Lemma main_saved env fs :
  truthy (sheet_id env) = true -> new_data env <> [] -> write env = WriteOk ->
  main env fs
  = (Text (Json.dumps (of_items (sorted_desc
             (merge_data (persisted fs) (new_data env))))), Ok tt).
Proof.
  intros Hid Hnew Hw. unfold main. rewrite Hid.
  destruct (new_data env) as [|item new] eqn:E; [congruence|].
  cbn [negb truthy_dict]. unfold bind at 1.
  rewrite load_existing_data_eq. unfold bind. rewrite Hw, save_data_WriteOk.
  destruct (statistics_total (merge_data (persisted fs) (item :: new)))
    as (total & mean & ->).
  reflexivity.
Qed.

Lemma main_not_saved env fs :
  truthy (sheet_id env) = true -> new_data env <> [] -> write env <> WriteOk ->
  exists fs', main env fs = (fs', Raise (SystemExit 1)).
Proof.
  intros Hid Hnew Hw. unfold main. rewrite Hid.
  destruct (new_data env) as [|item new] eqn:E; [congruence|].
  cbn [negb truthy_dict]. unfold bind at 1.
  rewrite load_existing_data_eq. unfold bind.
  destruct (save_data_not_ok (write env)
              (merge_data (persisted fs) (item :: new)) fs Hw) as (fs' & ->).
  now exists fs'.
Qed.

(** What a run that ends with status 0 leaves in the file. *)
Lemma main_status_0 env fs fs' r :
  main env fs = (fs', r) -> exit_status r = 0 ->
  dict_eq (persisted fs') (merge_data (persisted fs) (new_data env)).
Proof.
  intros Hmain Hst.
  destruct (truthy (sheet_id env)) eqn:Hid.
  - destruct (new_data env) as [|item new] eqn:Hnew.
    + rewrite main_no_new_data in Hmain by assumption.
      inversion Hmain; subst. intros k. reflexivity.
    + assert (Hne : new_data env <> []) by (rewrite Hnew; discriminate).
      destruct (write env) eqn:Hw.
      * rewrite main_saved in Hmain by assumption.
        inversion Hmain; subst. rewrite Hnew.
        rewrite persisted_after_save
          by (apply wf_merge_data, wf_persisted).
        apply sorted_desc_dict_eq. apply wf_merge_data, wf_persisted.
      * destruct (main_not_saved env fs Hid Hne) as (fs1 & H1);
          [rewrite Hw; discriminate|].
        rewrite H1 in Hmain. inversion Hmain; subst. discriminate.
      * destruct (main_not_saved env fs Hid Hne) as (fs1 & H1);
          [rewrite Hw; discriminate|].
        rewrite H1 in Hmain. inversion Hmain; subst. discriminate.
  - rewrite main_no_sheet_id in Hmain by assumption.
    inversion Hmain; subst. discriminate.
Qed.

Lemma wf_new_data env : dict_wf (new_data env).
Proof. apply wf_process_paroquia_data. Qed.

Lemma main_status_0_monotone env fs fs' r k v :
  main env fs = (fs', r) -> exit_status r = 0 ->
  get (persisted fs) k = Some v ->
  exists v', get (persisted fs') k = Some v' /\ v <= v'.
Proof.
  intros Hmain Hst Hget.
  rewrite (main_status_0 env fs fs' r Hmain Hst k).
  rewrite get_merge_data by apply wf_new_data. rewrite Hget.
  destruct (get (new_data env) k) as [b|]; eexists; split;
    try reflexivity; lia.
Qed.

(** C2. After a run that ends with status 0 the persisted CountMap is the
    merge of the CountMap persisted before with the data of the run, by
    the maximum for each key: a parish of both has the greater of its two
    counts, a parish persisted before alone keeps its count, a parish of
    the run alone is persisted with its new count, and there is no other
    parish.  So over any number of such runs, one after the other, a
    persisted count is never lowered and never removed. *)
Theorem persisted_is_merge_and_monotone :
  (forall env fs fs' r,
      main env fs = (fs', r) -> exit_status r = 0 ->
      dict_eq (persisted fs') (merge_data (persisted fs) (new_data env))
      /\ forall k,
           get (persisted fs') k =
           match get (persisted fs) k, get (new_data env) k with
           | Some a, Some b => Some (Z.max a b)
           | Some a, None => Some a
           | None, b => b
           end)
  /\ (forall envs fs fs',
        runs envs fs = Some fs' ->
        forall k v, get (persisted fs) k = Some v ->
                    exists v', get (persisted fs') k = Some v' /\ v <= v').
Proof.
  split.
  - intros env fs fs' r Hmain Hst.
    pose proof (main_status_0 env fs fs' r Hmain Hst) as Heq.
    split; [exact Heq|].
    intros k. rewrite (Heq k). apply get_merge_data, wf_new_data.
  - induction envs as [|env envs IH]; intros fs fs' Hruns k v Hget.
    + inversion Hruns; subst. exists v. split; [assumption | lia].
    + cbn [runs] in Hruns. destruct (main env fs) as [fs1 r] eqn:Hmain.
      destruct (exit_status r =? 0) eqn:Hst; [|discriminate].
      apply Z.eqb_eq in Hst.
      destruct (main_status_0_monotone env fs fs1 r k v Hmain Hst Hget)
        as (v1 & Hget1 & Hle1).
      destruct (IH fs1 fs' Hruns k v1 Hget1) as (v' & Hget' & Hle').
      exists v'. split; [assumption | lia].
Qed.

Lemma persisted_is_merge_and_monotone_witness :
  let df (n : nat) : DataFrame :=
    [("Qual sua Paróquia?", repeat (Some "Paróquia Santa Rita") n)] in
  let env (n : nat) : Env :=
    {| SHEET_ID := None; download := fun _ => Some (df n); write := WriteOk |} in
  let fs := Text (Json.dumps [("Paróquia São José", 7)]) in
  let fs1 := fst (main (env 3%nat) fs) in
  (get (persisted fs1) "Paróquia Santa Rita" = Some 3
   /\ get (persisted fs1) "Paróquia São José" = Some 7
   /\ get (persisted fs1) "Paróquia São Pedro" = None)
  /\ exists fs',
       runs [env 3%nat; env 5%nat; env 1%nat; env 0%nat] fs = Some fs'
       /\ persisted fs'
          = [("Paróquia São José", 7); ("Paróquia Santa Rita", 5)]
       /\ exists v', get (persisted fs') "Paróquia São José" = Some v'
                     /\ 7 <= v'.
Proof.
  intros df env fs fs1.
  destruct persisted_is_merge_and_monotone as [Hrun Hruns].
  assert (Hmain : main (env 3%nat) fs = (fs1, Ok tt))
    by (vm_compute; reflexivity).
  destruct (Hrun (env 3%nat) fs fs1 (Ok tt) Hmain eq_refl) as [_ Hget].
  split.
  - rewrite !Hget. vm_compute. repeat split.
  - eexists. split; [vm_compute; reflexivity|].
    split; [vm_compute; reflexivity|].
    apply (Hruns [env 3%nat; env 5%nat; env 1%nat; env 0%nat] fs);
      vm_compute; reflexivity.
Defined.

(** C4, as amended. When the download fails, the run ends with the file
    as it was and with exit status 0: the failure is taken for "no new
    data". *)
Theorem fetch_failure_keeps_file_exit_0 (env : Env) (fs : file_state) :
  truthy (sheet_id env) = true ->
  get_sheet_data env (sheet_id env) = None ->
  main env fs = (fs, Raise (SystemExit 0))
  /\ exit_status (snd (main env fs)) = 0.
Proof.
  intros Hid Hfetch.
  assert (Hmain : main env fs = (fs, Raise (SystemExit 0))).
  { apply main_no_new_data; [assumption|]. unfold new_data. now rewrite Hfetch. }
  split; [assumption|]. now rewrite Hmain.
Qed.

Lemma fetch_failure_keeps_file_exit_0_witness :
  let env := {| SHEET_ID := None; download := fun _ => None;
                write := WriteOk |} in
  main env (Text "{}") = (Text "{}", Raise (SystemExit 0))
  /\ exit_status (snd (main env (Text "{}"))) = 0.
Proof.
  intros env.
  apply (fetch_failure_keeps_file_exit_0 env (Text "{}")); reflexivity.
Defined.

(** C4, as stated, fails: this run cannot download the sheet, leaves the
    file as it was, and its exit status is 0, not a non-zero one. *)
Lemma fetch_failure_exit_status_not_nonzero :
  let env := {| SHEET_ID := None; download := fun _ => None;
                write := WriteOk |} in
  get_sheet_data env (sheet_id env) = None
  /\ fst (main env (Text "{}")) = Text "{}"
  /\ ~ (exit_status (snd (main env (Text "{}"))) <> 0).
Proof.
  intros env.
  split; [reflexivity|]. split; [reflexivity|].
  intros H. apply H. reflexivity.
Qed.

(** C8. When the freshly tabulated CountMap is empty, the run ends with
    exit status 0 and the file is what it was before the run. *)
Theorem empty_new_data_keeps_file_exit_0 (env : Env) (fs : file_state) :
  truthy (sheet_id env) = true ->
  new_data env = [] ->
  main env fs = (fs, Raise (SystemExit 0))
  /\ exit_status (snd (main env fs)) = 0.
Proof.
  intros Hid Hnew.
  rewrite main_no_new_data by assumption. split; reflexivity.
Qed.

Lemma empty_new_data_keeps_file_exit_0_witness :
  let df : DataFrame :=
    [("Nome", [Some "Ana"; Some "Rui"]);
     ("Qual sua Paróquia?", [Some "   "; None])] in
  let env :=
    {| SHEET_ID := Some "sheet"; download := fun _ => Some df;
       write := WriteOk |} in
  let fs := Text (Json.dumps [("Paróquia São José", 7)]) in
  main env fs = (fs, Raise (SystemExit 0))
  /\ exit_status (snd (main env fs)) = 0.
Proof.
  intros df env fs.
  apply (empty_new_data_keeps_file_exit_0 env fs); reflexivity.
Defined.

(** * Further properties *)

(** ** [merge_data]: keys and their order *)

Lemma has_key_In (d : dict) k : has_key d k = true <-> In k (keys d).
Proof.
  unfold has_key. destruct (get d k) as [v|] eqn:E.
  - split; auto. intros _. eapply get_Some_In; eassumption.
  - split; [discriminate|]. intros H. apply get_None in E. contradiction.
Qed.

Lemma keys_set_eq (d : dict) k v :
  keys (set d k v) = if has_key d k then keys d else (keys d ++ [k])%list.
Proof.
  destruct (has_key d k) eqn:E.
  - apply has_key_In in E. unfold has_key in *.
    induction d as [|[k0 v0] d IH]; simpl in *; [contradiction|].
    destruct (String.eqb_spec k0 k) as [->|Hne]; [reflexivity|].
    simpl. f_equal. apply IH. destruct E; [contradiction | assumption].
  - assert (Hn : ~ In k (keys d)).
    { intros Hin. apply has_key_In in Hin. congruence. }
    rewrite set_fresh by assumption. unfold keys. now rewrite map_app.
Qed.

Lemma has_key_set (d : dict) k v k' :
  has_key (set d k v) k' = String.eqb k k' || has_key d k'.
Proof.
  unfold has_key. rewrite get_set. now destruct (String.eqb k k').
Qed.

Lemma keys_merge_step_eq (d : dict) k c :
  keys (merge_step d (k, c))
  = if has_key d k then keys d else (keys d ++ [k])%list.
Proof.
  rewrite merge_step_eq. apply keys_set_eq.
Qed.

Lemma has_key_merge_step (d : dict) k c k' :
  has_key (merge_step d (k, c)) k' = String.eqb k k' || has_key d k'.
Proof.
  rewrite merge_step_eq. apply has_key_set.
Qed.

Lemma keys_fold_merge_step (B : dict) : forall A,
  dict_wf B ->
  keys (fold_left merge_step B A)
  = (keys A ++ filter (fun k => negb (has_key A k)) (keys B))%list.
Proof.
  unfold dict_wf.
  induction B as [|[k c] B IH]; intros A Hwf; simpl.
  - now rewrite List.app_nil_r.
  - inversion Hwf as [|? ? Hnotin Hwf']; subst.
    rewrite IH by assumption.
    assert (Hfilter :
      filter (fun k' => negb (has_key (merge_step A (k, c)) k')) (keys B)
      = filter (fun k' => negb (has_key A k')) (keys B)).
    { apply filter_ext_in. intros k' Hin. rewrite has_key_merge_step.
      destruct (String.eqb_spec k k') as [->|Hne]; [contradiction | reflexivity]. }
    rewrite Hfilter, keys_merge_step_eq.
    destruct (has_key A k); simpl; [reflexivity|].
    now rewrite <- List.app_assoc.
Qed.

(** X1. A key of the merged map is a key of the existing map or of the
    fresh map, and conversely: the merge adds no parish of its own and
    drops none. *)
Theorem merge_data_keys_exactly (A B : dict) (k : string) :
  In k (keys (merge_data A B)) <-> In k (keys A) \/ In k (keys B).
Proof.
  apply keys_merge_data.
Qed.

(** X2. The merged map lists the existing parishes first, in their own
    order, and behind them the parishes that only the fresh map has, in
    the order of the fresh map. *)
Theorem merge_data_key_order (A B : dict) :
  dict_wf B ->
  keys (merge_data A B)
  = (keys A ++ filter (fun k => negb (has_key A k)) (keys B))%list.
Proof.
  intros Hwf. unfold merge_data. now apply keys_fold_merge_step.
Qed.

Lemma merge_data_key_order_witness :
  let A := [("St. Mary", 5); ("St. Joseph", 2)] in
  let B := [("St. Anne", 1); ("St. Mary", 9); ("St. Luke", 4)] in
  keys (merge_data A B) = ["St. Mary"; "St. Joseph"; "St. Anne"; "St. Luke"].
Proof.
  intros A B.
  change ["St. Mary"; "St. Joseph"; "St. Anne"; "St. Luke"]
    with (keys A ++ filter (fun k => negb (has_key A k)) (keys B))%list.
  apply (merge_data_key_order A B). unfold B. wf_concrete.
Defined.

(** X4. As mappings, merging A into B and B into A give the same result:
    only the order of the keys depends on which map is the existing
    one. *)
Theorem merge_data_commutes (A B : dict) :
  dict_wf A -> dict_wf B ->
  dict_eq (merge_data A B) (merge_data B A).
Proof.
  intros HA HB k. rewrite !get_merge_data by assumption.
  destruct (get A k) as [a|], (get B k) as [b|]; try reflexivity.
  now rewrite Z.max_comm.
Qed.

Lemma merge_data_commutes_witness :
  let A := [("St. Mary", 5); ("St. Joseph", 2)] in
  let B := [("St. Anne", 1); ("St. Mary", 9)] in
  get (merge_data A B) "St. Mary" = get (merge_data B A) "St. Mary"
  /\ keys (merge_data A B) <> keys (merge_data B A).
Proof.
  intros A B. split.
  - apply (merge_data_commutes A B); [unfold A | unfold B]; wf_concrete.
  - discriminate.
Defined.

Lemma fold_merge_step_absorbed (B : dict) : forall A,
  (forall k b, In (k, b) B -> exists a, get A k = Some a /\ b <= a) ->
  fold_left merge_step B A = A.
Proof.
  induction B as [|[k b] B IH]; intros A H; simpl; [reflexivity|].
  destruct (H k b) as (a & Ha & Hle); [now left|].
  rewrite merge_step_eq, Ha. replace (Z.max a b) with a by lia.
  rewrite set_get_same by assumption.
  apply IH. intros k' b' Hin. apply H. now right.
Qed.

Lemma fold_merge_step_absorbed_merge (A B : dict) :
  (forall k b, In (k, b) B -> exists a, get A k = Some a /\ b <= a) ->
  merge_data A B = A.
Proof.
  intros H. unfold merge_data. now apply fold_merge_step_absorbed.
Qed.

(** X5. A fresh map that has no new parish and no count above the
    existing one changes nothing: the merged map is the existing map,
    item by item. *)
Theorem merge_data_absorbs_lower_counts (A B : dict) :
  (forall k b, In (k, b) B -> exists a, get A k = Some a /\ b <= a) ->
  merge_data A B = A.
Proof.
  intros H. unfold merge_data. now apply fold_merge_step_absorbed.
Qed.

Lemma merge_data_absorbs_lower_counts_witness :
  let A := [("St. Mary", 5); ("St. Joseph", 2)] in
  let B := [("St. Joseph", 2); ("St. Mary", 3)] in
  merge_data A B = A.
Proof.
  intros A B. apply (merge_data_absorbs_lower_counts A B).
  intros k b [H | [H | []]]; inversion H; subst; eexists;
    (split; [reflexivity | lia]).
Defined.

(** ** The tabulator: what is counted, the total, the order *)

Lemma total_inscricoes_set (d : dict) k v :
  total_inscricoes (set d k v)
  = total_inscricoes d - match get d k with Some old => old | None => 0 end + v.
Proof.
  unfold total_inscricoes, values.
  induction d as [|[k0 v0] d IH]; simpl; [lia|].
  destruct (String.eqb k0 k); simpl; [lia|]. rewrite IH. lia.
Qed.

Lemma total_inscricoes_Counter (l : list string) :
  total_inscricoes (Counter l) = Z.of_nat (List.length l).
Proof.
  unfold Counter.
  assert (H : forall l d, total_inscricoes (fold_left count_elem l d)
                          = total_inscricoes d + Z.of_nat (List.length l)).
  { clear. induction l as [|p l IH]; intros d.
    - simpl. lia.
    - cbn [fold_left List.length]. rewrite IH. unfold count_elem.
      rewrite total_inscricoes_set. destruct (get d p); lia. }
  rewrite H. reflexivity.
Qed.

Lemma filter_filter_neq (f : string -> bool) p (l : list string) :
  filter (fun q => negb (String.eqb p q || f q)) l
  = filter (fun q => negb (f q)) (filter (fun q => negb (String.eqb p q)) l).
Proof.
  induction l as [|x l IH]; simpl; [reflexivity|].
  destruct (String.eqb p x); simpl; [assumption|].
  destruct (f x); simpl; now rewrite IH.
Qed.

Lemma keys_fold_count_elem (l : list string) : forall d,
  keys (fold_left count_elem l d)
  = (keys d ++ filter (fun q => negb (has_key d q)) (first_seen l))%list.
Proof.
  induction l as [|p l IH]; intros d.
  - simpl. now rewrite List.app_nil_r.
  - cbn [fold_left first_seen]. rewrite IH. unfold count_elem.
    rewrite keys_set_eq.
    rewrite (filter_ext _ (fun q => negb (String.eqb p q || has_key d q)))
      by (intros q; now rewrite has_key_set).
    rewrite filter_filter_neq. cbn [filter].
    destruct (has_key d p); cbn [negb]; [reflexivity|].
    now rewrite <- List.app_assoc.
Qed.

(** X6. The tabulator counts a label exactly as it is written: a label has
    an entry if and only if it passes the test of line 82 (it contains the
    word "paróquia" in any case) and occurs; its count is the number of
    its occurrences.  Labels that differ in case or in spacing are
    different entries. *)
Theorem tabulate_counts_verbatim (labels : list string) (p : string) :
  get (tabulate labels) p
  = if keep p && (0 <? occurrences p labels)
    then Some (occurrences p labels) else None.
Proof.
  apply get_tabulate.
Qed.

(** X7. The counts of the tabulator add up to the number of labels that
    pass the test of line 82: every kept row is counted once. *)
Theorem tabulate_total (labels : list string) :
  total_inscricoes (tabulate labels)
  = Z.of_nat (List.length (filter keep labels)).
Proof.
  unfold tabulate. apply total_inscricoes_Counter.
Qed.

(** X8. The entries of the tabulator come in the order in which the kept
    labels are seen first, and no label has two entries. *)
Theorem tabulate_key_order (labels : list string) :
  keys (tabulate labels) = first_seen (filter keep labels)
  /\ dict_wf (tabulate labels).
Proof.
  split; [|apply wf_Counter].
  unfold tabulate, Counter. rewrite keys_fold_count_elem. simpl.
  generalize (first_seen (filter keep labels)) as l.
  induction l as [|q l IH]; simpl; congruence.
Qed.

(** ** Line 82: the blank test never decides *)

Module KeepFacts.

Lemma space1_printable c : printable c -> space1 c = false.
Proof.
  unfold printable, space1, between. intros H.
  apply orb_false_intro; apply andb_false_iff.
  - right. apply N.leb_gt. lia.
  - right. apply N.leb_gt. lia.
Qed.

Lemma space2_high c1 c2 :
  space2 c1 c2 = true -> (0x80 <= code c1 /\ 0x80 <= code c2)%N.
Proof.
  unfold space2, byte. intros H.
  apply andb_prop in H. destruct H as [H1 H2].
  apply N.eqb_eq in H1. apply orb_prop in H2.
  destruct H2 as [H2|H2]; apply N.eqb_eq in H2; lia.
Qed.

Lemma space3_high c1 c2 c3 :
  space3 c1 c2 c3 = true ->
  (0x80 <= code c1 /\ 0x80 <= code c2 /\ 0x80 <= code c3)%N.
Proof.
  unfold space3, byte, between. intros H.
  repeat match type of H with
         | (_ || _) = true => apply orb_prop in H; destruct H as [H|H]
         end;
    repeat match goal with
           | H : (_ && _) = true |- _ =>
               apply andb_prop in H; let H' := fresh in destruct H as [H H']
           | H : (_ || _) = true |- _ => apply orb_prop in H; destruct H as [H|H]
           | H : (_ =? _)%N = true |- _ => apply N.eqb_eq in H
           | H : (_ <=? _)%N = true |- _ => apply N.leb_le in H
           end; lia.
Qed.

(** [lstrip] takes away white space only: a printable byte stays. *)
Lemma lstrip_keeps_printable c : printable c ->
  forall n s, (String.length s <= n)%nat ->
              In c (bytes s) -> In c (bytes (lstrip s)).
Proof.
  intros Hc. pose proof (space1_printable c Hc) as Hc1.
  unfold printable in Hc.
  induction n as [|n IH]; intros s Hlen Hin.
  - destruct s; [contradiction | simpl in Hlen; lia].
  - destruct s as [|c1 r1]; [contradiction|].
    cbn [lstrip]. simpl in Hlen.
    destruct (space1 c1) eqn:E1.
    + apply IH; [lia|]. destruct Hin as [->|Hin]; [congruence | assumption].
    + destruct r1 as [|c2 r2]; [assumption|]. simpl in Hlen.
      destruct (space2 c1 c2) eqn:E2.
      * apply space2_high in E2. apply IH; [lia|].
        destruct Hin as [->|[->|Hin]]; [lia | lia | assumption].
      * destruct r2 as [|c3 r3]; [assumption|]. simpl in Hlen.
        destruct (space3 c1 c2 c3) eqn:E3; [|assumption].
        apply space3_high in E3. apply IH; [lia|].
        destruct Hin as [->|[->|[->|Hin]]]; [lia | lia | lia | assumption].
Qed.

Lemma truthy_In c s : In c (bytes s) -> truthy s = true.
Proof.
  destruct s; [contradiction | reflexivity].
Qed.

(** A string with a printable byte is not blank. *)
Lemma strip_printable c s :
  printable c -> In c (bytes s) -> truthy (strip s) = true.
Proof.
  intros Hc Hin. unfold strip.
  pose proof (lstrip_keeps_printable c Hc _ s (le_n _) Hin) as H1.
  pose proof (lstrip_keeps_printable c Hc _ (lstrip s) (le_n _) H1) as H2.
  destruct (lstrip s) as [|a r]; [contradiction|].
  cbn [rstrip]. now rewrite (truthy_In c _ H2).
Qed.

Lemma prefix_head c n h :
  prefix (String c n) h = true -> exists h', h = String c h'.
Proof.
  destruct h as [|b h]; simpl; [discriminate|].
  destruct (ascii_dec c b) as [->|]; [eauto | discriminate].
Qed.

(** A string that contains [needle] contains its first byte. *)
Lemma str_in_head c n h : str_in (String c n) h = true -> In c (bytes h).
Proof.
  induction h as [|b h IH]; intros H.
  - simpl in H. discriminate.
  - cbn [str_in] in H. apply orb_prop in H. destruct H as [H|H].
    + apply prefix_head in H. destruct H as (h' & Heq).
      inversion Heq; subst. now left.
    + right. now apply IH.
Qed.

(** A lower-case p in [lower s] is a p of [s], in either case. *)
Lemma lower_p : forall n s, (String.length s <= n)%nat ->
  In "p"%char (bytes (lower s)) ->
  In "p"%char (bytes s) \/ In "P"%char (bytes s).
Proof.
  induction n as [|n IH]; intros s Hlen Hin.
  - destruct s; [contradiction | simpl in Hlen; lia].
  - destruct s as [|c r]; [contradiction|].
    cbn [lower] in Hin. simpl in Hlen.
    destruct (between 0x41 0x5A c) eqn:Eup.
    + destruct Hin as [Hp|Hin].
      * right. left. clear - Hp Eup.
        destruct c as [[] [] [] [] [] [] [] []];
          first [discriminate Eup | discriminate Hp | reflexivity].
      * destruct (IH r ltac:(lia) Hin) as [H|H]; [left | right]; now right.
    + destruct (byte 0xC3 c) eqn:E3.
      * destruct r as [|d r'].
        -- destruct Hin as [Hp|[]]. left. now left.
        -- simpl in Hlen. destruct (latin1_upper d) eqn:Ed.
           ++ destruct Hin as [Hp|[Hp|Hin]].
              ** left. now left.
              ** exfalso. clear - Hp Ed.
                 destruct d as [[] [] [] [] [] [] [] []];
                   first [discriminate Ed | discriminate Hp].
              ** destruct (IH r' ltac:(lia) Hin) as [H|H];
                   [left | right]; right; now right.
           ++ destruct Hin as [Hp|Hin]; [left; now left|].
              destruct (IH (String d r') ltac:(simpl; lia) Hin) as [H|H];
                [left | right]; now right.
      * destruct Hin as [Hp|Hin]; [left; now left|].
        destruct (IH r ltac:(lia) Hin) as [H|H]; [left | right]; now right.
Qed.

Lemma keep_eq (p : string) : keep p = str_in "paróquia" (lower p).
Proof.
  unfold keep.
  destruct (str_in "paróquia" (lower p)) eqn:E; [|apply andb_false_r].
  apply str_in_head in E.
  apply (lower_p _ p (le_n _)) in E.
  rewrite andb_true_r.
  destruct E as [E|E]; eapply strip_printable; try exact E;
    unfold printable; simpl; lia.
Qed.

End KeepFacts.

(** X9. In the test of line 82 the check for a blank value decides
    nothing: a label is kept if and only if its lower-case form contains
    "paróquia", because a label with that word is never blank. *)
Theorem keep_is_header_word_test (p : string) :
  keep p = str_in "paróquia" (lower p).
Proof.
  apply KeepFacts.keep_eq.
Qed.

(** ** The choice of the column *)

(** X10. The column of the parishes is a column of the frame; there is
    none exactly when no header contains a keyword and the frame has
    fewer than five columns. With a keyword header it is the first such
    header, otherwise the fifth column. *)
Theorem paroquia_column_choice (df : DataFrame) :
  (forall col, paroquia_column df = Some col -> In col (df_columns df))
  /\ (paroquia_column df = None <->
      (forall col, In col (df_columns df) -> is_paroquia_header col = false)
      /\ (List.length (df_columns df) < 5)%nat)
  /\ (forall col, find is_paroquia_header (df_columns df) = Some col ->
        paroquia_column df = Some col)
  /\ (find is_paroquia_header (df_columns df) = None ->
      paroquia_column df = nth_error (df_columns df) 4).
Proof.
  unfold paroquia_column.
  destruct (find is_paroquia_header (df_columns df)) as [c|] eqn:Efind.
  - split; [|split; [|split]].
    + intros col H. inversion H; subst. now apply find_some in Efind.
    + split; [discriminate|]. intros [Hall _].
      apply find_some in Efind. destruct Efind as [Hin Ht].
      rewrite (Hall c Hin) in Ht. discriminate.
    + auto.
    + discriminate.
  - pose proof (find_none _ _ Efind) as Hnone.
    destruct (5 <=? List.length (df_columns df))%nat eqn:E5.
    + apply Nat.leb_le in E5. split; [|split; [|split]].
      * intros col H. eapply nth_error_In; eassumption.
      * split.
        -- intros H. apply nth_error_None in H. lia.
        -- intros [_ H]. lia.
      * discriminate.
      * reflexivity.
    + apply Nat.leb_gt in E5. split; [|split; [|split]].
      * discriminate.
      * split; auto.
      * discriminate.
      * intros _. symmetry. apply nth_error_None. lia.
Qed.

Lemma paroquia_column_choice_witness :
  let df : DataFrame :=
    [("Carimbo", [Some "1"]); ("Nome", [Some "Ana"]);
     ("CIDADE onde mora", [Some "Recife"]);
     ("Qual sua Paróquia?", [Some "Paróquia Santa Rita"])] in
  paroquia_column df = Some "CIDADE onde mora".
Proof.
  intros df.
  apply (proj1 (proj2 (proj2 (paroquia_column_choice df)))).
  reflexivity.
Defined.

Lemma In_dropna (cells : list cell) p : In p (dropna cells) <-> In (Some p) cells.
Proof.
  induction cells as [|[q|] cells IH]; simpl.
  - reflexivity.
  - rewrite IH. split; intros [H|H]; auto; left; congruence.
  - rewrite IH. split; [auto | intros [H|H]; [discriminate | assumption]].
Qed.

Lemma keys_Counter_In (l : list string) p : In p (keys (Counter l)) -> In p l.
Proof.
  intros H. apply In_keys_get in H. destruct H as (v & Hv).
  rewrite get_Counter in Hv.
  destruct (0 <? occurrences p l) eqn:E; [|discriminate].
  apply Z.ltb_lt in E. now apply occurrences_In.
Qed.

(** X11. Every parish that [process_paroquia_data] answers is a value of
    the chosen column, is not missing, and contains the word "paróquia"
    in some case; without a frame, with an empty frame or without a
    column the answer is empty. *)
Theorem process_paroquia_data_keys (df : option DataFrame) (p : string) :
  In p (keys (process_paroquia_data df)) ->
  exists frame col,
    df = Some frame /\ df_empty frame = false
    /\ paroquia_column frame = Some col
    /\ In (Some p) (df_column frame col)
    /\ str_in "paróquia" (lower p) = true.
Proof.
  unfold process_paroquia_data. intros H.
  destruct df as [frame|]; [|contradiction].
  destruct (df_empty frame) eqn:Eempty; [contradiction|].
  destruct (paroquia_column frame) as [col|] eqn:Ecol; [|contradiction].
  destruct (is_series frame col); [|contradiction].
  exists frame, col.
  split; [reflexivity|]. split; [assumption|]. split; [assumption|].
  unfold tabulate in H. apply keys_Counter_In in H.
  apply filter_In in H. destruct H as [Hin Hkeep].
  split; [now apply In_dropna|].
  now rewrite <- KeepFacts.keep_eq.
Qed.

Lemma process_paroquia_data_keys_witness :
  let df : DataFrame :=
    [("Nome", [Some "Ana"; Some "Rui"; Some "Lia"]);
     ("Qual sua Paróquia?",
      [Some "PARÓQUIA Santa Rita"; None; Some "Capela"])] in
  exists frame col,
    Some df = Some frame /\ df_empty frame = false
    /\ paroquia_column frame = Some col
    /\ In (Some "PARÓQUIA Santa Rita") (df_column frame col)
    /\ str_in "paróquia" (lower "PARÓQUIA Santa Rita") = true.
Proof.
  intros df.
  apply (process_paroquia_data_keys (Some df) "PARÓQUIA Santa Rita").
  vm_compute. now left.
Defined.

(** ** The store: failures, saving again *)

Lemma insert_desc_head x l :
  StronglySorted count_ge (x :: l) -> insert_desc x l = x :: l.
Proof.
  intros H. inversion H as [|? ? _ Hall]; subst.
  destruct l as [|y l]; [reflexivity|].
  inversion Hall as [|? ? Hy _]; subst. unfold count_ge in Hy.
  cbn [insert_desc]. apply Z.leb_le in Hy. now rewrite Hy.
Qed.

Lemma sorted_desc_fixpoint l : StronglySorted count_ge l -> sorted_desc l = l.
Proof.
  induction l as [|x l IH]; intros H; [reflexivity|].
  cbn [sorted_desc fold_right]. fold (sorted_desc l).
  rewrite IH by (now inversion H). now apply insert_desc_head.
Qed.

(** X12. [save_data] never raises: it answers [True] when the file is
    written and [False] when opening or writing fails; when the file
    cannot be opened, it is left as it was. *)
Theorem save_data_reports_failure (o : write_outcome) (data : dict)
  (fs : file_state) :
  exists fs',
    save_data o data fs
    = (fs', Ok (match o with WriteOk => true | _ => false end))
    /\ (o = OpenFails -> fs' = fs)
    /\ (o = WriteOk -> fs' = Text (Json.dumps (of_items (sorted_desc data)))).
Proof.
  destruct o; eexists; (split; [reflexivity|]); split;
    intros H; try reflexivity; discriminate.
Qed.

Lemma save_data_reports_failure_witness :
  exists fs',
    save_data OpenFails [("St. Mary", 5)] (Text "{}") = (fs', Ok false)
    /\ fs' = Text "{}".
Proof.
  destruct (save_data_reports_failure OpenFails [("St. Mary", 5)] (Text "{}"))
    as (fs' & Hsave & Hopen & _).
  exists fs'. split; [exact Hsave | now apply Hopen].
Defined.

(** X13. Sorting is idempotent, so saving is stable: when the CountMap
    that a saved file holds is saved again, the same text is written. *)
Theorem save_data_again_same_text (M : dict) (fs : file_state) :
  dict_wf M ->
  forall fs1, save_data WriteOk M fs = (fs1, Ok true) ->
  sorted_desc (sorted_desc M) = sorted_desc M
  /\ save_data WriteOk (persisted fs1) fs1 = (fs1, Ok true).
Proof.
  intros Hwf fs1 Hsave. rewrite save_data_WriteOk in Hsave.
  inversion Hsave; subst.
  assert (Hfix : sorted_desc (sorted_desc M) = sorted_desc M)
    by (apply sorted_desc_fixpoint, sorted_desc_sorted).
  split; [assumption|].
  rewrite save_data_WriteOk, persisted_after_save by assumption.
  now rewrite Hfix.
Qed.

Lemma save_data_again_same_text_witness :
  let M := [("St. Joseph", 2); ("St. Mary", 5); ("St. Anne", 2)] in
  let fs1 := Text (Json.dumps (of_items (sorted_desc M))) in
  sorted_desc (sorted_desc M) = sorted_desc M
  /\ save_data WriteOk (persisted fs1) fs1 = (fs1, Ok true).
Proof.
  intros M fs1.
  apply (save_data_again_same_text M Absent); [unfold M; wf_concrete|].
  reflexivity.
Defined.

(** ** [main]: exit status, the file *)

Lemma fold_merge_step_fresh (l : dict) : forall d,
  NoDup (keys d ++ keys l)%list -> fold_left merge_step l d = (d ++ l)%list.
Proof.
  induction l as [|[k v] l IH]; intros d H; simpl.
  - now rewrite List.app_nil_r.
  - assert (Hk : ~ In k (keys d)).
    { apply NoDup_remove_2 in H. intros Hin. apply H.
      apply in_or_app. now left. }
    pose proof Hk as Hg. apply get_None in Hg.
    rewrite merge_step_eq, Hg, set_fresh by assumption.
    rewrite IH.
    + now rewrite <- List.app_assoc.
    + unfold keys in *. rewrite map_app. simpl. now rewrite <- List.app_assoc.
Qed.

Lemma merge_data_nil (B : dict) : dict_wf B -> merge_data [] B = B.
Proof.
  intros H. unfold merge_data. now rewrite fold_merge_step_fresh.
Qed.

Lemma main_cases env fs :
  (truthy (sheet_id env) = false /\ main env fs = (fs, Raise (SystemExit 1)))
  \/ (truthy (sheet_id env) = true /\ new_data env = []
      /\ main env fs = (fs, Raise (SystemExit 0)))
  \/ (truthy (sheet_id env) = true /\ new_data env <> []
      /\ write env = WriteOk
      /\ main env fs
         = (Text (Json.dumps (of_items (sorted_desc
                    (merge_data (persisted fs) (new_data env))))), Ok tt))
  \/ (truthy (sheet_id env) = true /\ new_data env <> []
      /\ write env <> WriteOk
      /\ exists fs', main env fs = (fs', Raise (SystemExit 1))).
Proof.
  destruct (truthy (sheet_id env)) eqn:Hid.
  - right. destruct (new_data env) as [|item new] eqn:Hnew.
    + left. repeat split. apply main_no_new_data; assumption.
    + right.
      assert (Hne : new_data env <> []) by (rewrite Hnew; discriminate).
      rewrite <- Hnew.
      destruct (write env) eqn:Hw.
      * left. repeat split; auto. now apply main_saved.
      * right. repeat split; auto; [discriminate|].
        apply main_not_saved; auto. rewrite Hw. discriminate.
      * right. repeat split; auto; [discriminate|].
        apply main_not_saved; auto. rewrite Hw. discriminate.
  - left. split; [reflexivity|]. now apply main_no_sheet_id.
Qed.

Lemma json_rejected_loads s : json_rejected s = true -> Json.loads s = None.
Proof.
  unfold json_rejected, Json.loads, value_start.
  destruct (Json.skip_ws s) as [|c r]; [reflexivity|].
  destruct (byte 0x7B c); [discriminate | reflexivity].
Qed.

(** X15. On a file that is missing, unreadable, rejected by [json.load]
    at its first character or the text of a CountMap, and with a total
    within the range of floats, [main] ends with exit status 0 or 1 and
    never with an uncaught exception; the status is 1 exactly when the
    sheet id is empty, or there is new data and the file could not be
    written. *)
Theorem main_exit_status (env : Env) (fs : file_state) :
  exact_file fs ->
  Z.abs (total_inscricoes (merge_data (persisted fs) (new_data env)))
  < 2 ^ 1023 ->
  let r := snd (main env fs) in
  (r = Ok tt \/ r = Raise (SystemExit 0) \/ r = Raise (SystemExit 1))
  /\ (exit_status r = 1 <->
      truthy (sheet_id env) = false
      \/ (new_data env <> [] /\ write env <> WriteOk)).
Proof.
  intros _ _ r. unfold r.
  destruct (main_cases env fs)
    as [(Hid & ->) | [(Hid & Hnew & ->) | [(Hid & Hnew & Hw & ->)
       | (Hid & Hnew & Hw & fs' & ->)]]]; cbn [snd exit_status].
  - split; [auto|]. split; auto.
  - split; [auto|]. split; [discriminate|].
    intros [H | [H _]]; congruence.
  - split; [auto|]. split; [discriminate|].
    intros [H | [_ H]]; congruence.
  - split; [auto|]. split; auto.
Qed.

Lemma main_exit_status_witness :
  let df : DataFrame := [("Paróquia", [Some "Paróquia Santa Rita"])] in
  let env := {| SHEET_ID := None; download := fun _ => Some df;
                write := WriteFails EmptyString |} in
  let r := snd (main env (Text (Json.dumps [("Paróquia São José", 7)]))) in
  (r = Ok tt \/ r = Raise (SystemExit 0) \/ r = Raise (SystemExit 1))
  /\ exit_status r = 1.
Proof.
  intros df env r.
  destruct (main_exit_status env
              (Text (Json.dumps [("Paróquia São José", 7)])))
    as [Hr Hst].
  - right. eexists. vm_compute. reflexivity.
  - vm_compute. reflexivity.
  - split; [exact Hr|]. apply Hst. right.
    split; [vm_compute | simpl]; discriminate.
Defined.

(** X16. [main] leaves the file exactly as it was when the sheet id is
    empty, when there is no new data, or when the file cannot be opened
    for writing: the file is only ever replaced by a run that has new
    data. *)
Theorem main_file_untouched (env : Env) (fs : file_state) :
  truthy (sheet_id env) = false \/ new_data env = [] \/ write env = OpenFails ->
  fst (main env fs) = fs.
Proof.
  intros H.
  destruct (main_cases env fs)
    as [(Hid & ->) | [(Hid & Hnew & ->) | [(Hid & Hnew & Hw & Hm)
       | (Hid & Hnew & Hw & _)]]]; try reflexivity.
  - destruct H as [H | [H | H]]; congruence.
  - destruct H as [H | [H | H]]; try congruence.
    unfold main. rewrite Hid.
    destruct (new_data env) as [|item new]; [congruence|].
    cbn [negb truthy_dict]. unfold bind at 1.
    rewrite load_existing_data_eq. unfold bind. rewrite H. reflexivity.
Qed.

Lemma main_file_untouched_witness :
  let df : DataFrame := [("Paróquia", [Some "Paróquia Santa Rita"])] in
  let env := {| SHEET_ID := None; download := fun _ => Some df;
                write := OpenFails |} in
  fst (main env (Text "{}")) = Text "{}".
Proof.
  intros df env. apply (main_file_untouched env (Text "{}")).
  right. right. reflexivity.
Defined.

Lemma persisted_holds_nothing fs : holds_nothing fs -> persisted fs = [].
Proof.
  destruct fs as [| |s]; try reflexivity.
  intros [H|H]; rewrite persisted_Text.
  - now rewrite (json_rejected_loads s H).
  - now rewrite H.
Qed.

(** X17. When the file holds no entry (it is missing or unreadable, its
    text is rejected by [json.load] at the first character, or it is an
    empty object), a run with new data whose write succeeds leaves the
    new data alone in the file, sorted: the fresh counts become the whole
    content. *)
Theorem main_first_run (env : Env) (fs : file_state) :
  holds_nothing fs ->
  truthy (sheet_id env) = true -> new_data env <> [] -> write env = WriteOk ->
  fst (main env fs) = Text (Json.dumps (sorted_desc (new_data env)))
  /\ persisted (fst (main env fs)) = sorted_desc (new_data env).
Proof.
  intros Hfs Hid Hnew Hw.
  rewrite main_saved by assumption.
  rewrite (persisted_holds_nothing fs Hfs).
  rewrite merge_data_nil by apply wf_new_data.
  rewrite of_items_wf by apply wf_sorted_desc, wf_new_data.
  split; [reflexivity|]. cbn [fst].
  rewrite persisted_Text, JsonFacts.loads_dumps_wf
    by apply wf_sorted_desc, wf_new_data.
  reflexivity.
Qed.

Lemma main_first_run_witness :
  let df : DataFrame :=
    [("Paróquia",
      [Some "Paróquia Santa Rita"; Some "Paróquia São José";
       Some "Paróquia São José"])] in
  let env := {| SHEET_ID := None; download := fun _ => Some df;
                write := WriteOk |} in
  fst (main env (Text "<html>Service unavailable</html>"))
  = Text (Json.dumps [("Paróquia São José", 2); ("Paróquia Santa Rita", 1)]).
Proof.
  intros df env.
  change [("Paróquia São José", 2); ("Paróquia Santa Rita", 1)]
    with (sorted_desc (new_data env)).
  apply (main_first_run env (Text "<html>Service unavailable</html>"));
    try reflexivity.
  - left. reflexivity.
  - vm_compute. discriminate.
Defined.

(** ** [main]: what a run that saved leaves behind *)

Lemma main_saved_persisted env fs :
  truthy (sheet_id env) = true -> new_data env <> [] -> write env = WriteOk ->
  persisted (fst (main env fs))
  = sorted_desc (merge_data (persisted fs) (new_data env)).
Proof.
  intros Hid Hnew Hw. rewrite main_saved by assumption. cbn [fst].
  apply persisted_after_save, wf_merge_data, wf_persisted.
Qed.

(** X18. Running [main] again on the file it has left, with the same
    sheet, changes nothing: the same text is written and the run ends
    the same way. *)
Theorem main_run_again_same_file (env : Env) (fs fs1 : file_state)
  (r : result unit) :
  main env fs = (fs1, r) -> exit_status r = 0 -> main env fs1 = (fs1, r).
Proof.
  intros Hmain Hst.
  destruct (main_cases env fs)
    as [(Hid & Hm) | [(Hid & Hnew & Hm) | [(Hid & Hnew & Hw & Hm)
       | (Hid & Hnew & Hw & fs' & Hm)]]];
    rewrite Hm in Hmain; inversion Hmain; subst; try discriminate.
  - now apply main_no_new_data.
  - rewrite main_saved by assumption.
    pose proof (main_saved_persisted env fs Hid Hnew Hw) as Hp.
    rewrite Hm in Hp. cbn [fst] in Hp. rewrite Hp.
    set (merged := merge_data (persisted fs) (new_data env)) in *.
    assert (Hwf : dict_wf merged) by apply wf_merge_data, wf_persisted.
    rewrite (fold_merge_step_absorbed_merge (sorted_desc merged)).
    + now rewrite sorted_desc_fixpoint by apply sorted_desc_sorted.
    + intros k b Hin.
      destruct (merge_data_ge_new (new_data env) (persisted fs) k b Hin)
        as (m & Hm' & Hle).
      exists m. split; [|assumption].
      now rewrite (sorted_desc_dict_eq merged Hwf k).
Qed.

Lemma main_run_again_same_file_witness :
  let df : DataFrame :=
    [("Paróquia",
      [Some "Paróquia Santa Rita"; Some "Paróquia São José";
       Some "Paróquia São José"])] in
  let env := {| SHEET_ID := None; download := fun _ => Some df;
                write := WriteOk |} in
  let fs1 := fst (main env (Text (Json.dumps [("Paróquia Santa Rita", 4)]))) in
  main env fs1 = (fs1, Ok tt).
Proof.
  intros df env fs1.
  apply (main_run_again_same_file env
           (Text (Json.dumps [("Paróquia Santa Rita", 4)])));
    vm_compute; reflexivity.
Defined.

(** X19. After a run that ends with status 0, every parish of the new
    data is in the file, with a count that is not below its new
    count. *)
Theorem main_persists_new_counts (env : Env) (fs fs' : file_state)
  (r : result unit) (k : string) (b : Z) :
  main env fs = (fs', r) -> exit_status r = 0 ->
  get (new_data env) k = Some b ->
  exists v, get (persisted fs') k = Some v /\ b <= v.
Proof.
  intros Hmain Hst Hget.
  rewrite (main_status_0 env fs fs' r Hmain Hst k).
  rewrite get_merge_data by apply wf_new_data. rewrite Hget.
  destruct (get (persisted fs) k) as [a|]; eexists; split;
    try reflexivity; lia.
Qed.

Lemma main_persists_new_counts_witness :
  let df : DataFrame :=
    [("Paróquia",
      [Some "Paróquia Santa Rita"; Some "Paróquia São José";
       Some "Paróquia São José"])] in
  let env := {| SHEET_ID := None; download := fun _ => Some df;
                write := WriteOk |} in
  exists v,
    get (persisted (fst (main env Absent))) "Paróquia São José" = Some v
    /\ 2 <= v.
Proof.
  intros df env.
  apply (main_persists_new_counts env Absent (fst (main env Absent))
           (snd (main env Absent)) "Paróquia São José" 2);
    vm_compute; reflexivity.
Defined.

(** X20. After a run with new data that ends with status 0, the file is
    the JSON text of one CountMap: its keys are distinct and its entries
    are in the order of non-increasing count. *)
Theorem main_leaves_sorted_file (env : Env) (fs fs' : file_state)
  (r : result unit) :
  main env fs = (fs', r) -> exit_status r = 0 -> new_data env <> [] ->
  fs' = Text (Json.dumps (persisted fs'))
  /\ dict_wf (persisted fs')
  /\ StronglySorted count_ge (persisted fs').
Proof.
  intros Hmain Hst Hnew.
  destruct (main_cases env fs)
    as [(Hid & Hm) | [(Hid & Hnew' & Hm) | [(Hid & _ & Hw & Hm)
       | (Hid & _ & Hw & fs1 & Hm)]]];
    rewrite Hm in Hmain; inversion Hmain; subst; try discriminate;
    try contradiction.
  set (merged := merge_data (persisted fs) (new_data env)).
  assert (Hwf : dict_wf merged) by apply wf_merge_data, wf_persisted.
  rewrite persisted_after_save by assumption.
  rewrite of_items_wf by now apply wf_sorted_desc.
  split; [reflexivity|]. split.
  - now apply wf_sorted_desc.
  - apply sorted_desc_sorted.
Qed.

Lemma main_leaves_sorted_file_witness :
  let df : DataFrame :=
    [("Paróquia",
      [Some "Paróquia Santa Rita"; Some "Paróquia São José";
       Some "Paróquia São José"])] in
  let env := {| SHEET_ID := None; download := fun _ => Some df;
                write := WriteOk |} in
  let fs' := fst (main env (Text (Json.dumps [("Paróquia Santa Rita", 4)]))) in
  fs' = Text (Json.dumps (persisted fs'))
  /\ dict_wf (persisted fs')
  /\ StronglySorted count_ge (persisted fs').
Proof.
  intros df env fs'.
  apply (main_leaves_sorted_file env
           (Text (Json.dumps [("Paróquia Santa Rita", 4)])) fs' (Ok tt));
    vm_compute; try reflexivity; discriminate.
Defined.

Lemma total_inscricoes_perm (d d' : dict) :
  Permutation d d' -> total_inscricoes d = total_inscricoes d'.
Proof.
  unfold total_inscricoes, values.
  induction 1; simpl; lia.
Qed.

Lemma total_inscricoes_merge (B : dict) : forall A,
  Forall (fun c => 0 <= c) (values B) ->
  total_inscricoes A <= total_inscricoes (merge_data A B).
Proof.
  unfold merge_data, values.
  induction B as [|[k c] B IH]; intros A HB; simpl; [lia|].
  inversion HB; subst. simpl in *.
  eapply Z.le_trans; [|apply IH; assumption].
  rewrite merge_step_eq, total_inscricoes_set.
  destruct (get A k); lia.
Qed.

(** X21. The total of the persisted counts never goes down over a run
    that ends with status 0. *)
Theorem main_total_never_decreases (env : Env) (fs fs' : file_state)
  (r : result unit) :
  main env fs = (fs', r) -> exit_status r = 0 ->
  total_inscricoes (persisted fs) <= total_inscricoes (persisted fs').
Proof.
  intros Hmain Hst.
  destruct (main_cases env fs)
    as [(Hid & Hm) | [(Hid & Hnew & Hm) | [(Hid & Hnew & Hw & Hm)
       | (Hid & Hnew & Hw & fs1 & Hm)]]];
    rewrite Hm in Hmain; inversion Hmain; subst; try discriminate.
  - lia.
  - rewrite persisted_after_save by apply wf_merge_data, wf_persisted.
    rewrite (total_inscricoes_perm _ _ (sorted_desc_perm _)).
    apply total_inscricoes_merge.
    eapply Forall_impl; [|apply process_paroquia_data_positive].
    simpl. intros; lia.
Qed.

Lemma main_total_never_decreases_witness :
  let df : DataFrame :=
    [("Paróquia",
      [Some "Paróquia Santa Rita"; Some "Paróquia São José";
       Some "Paróquia São José"])] in
  let env := {| SHEET_ID := None; download := fun _ => Some df;
                write := WriteOk |} in
  let fs := Text (Json.dumps [("Paróquia Santa Rita", 4)]) in
  total_inscricoes (persisted fs)
  <= total_inscricoes (persisted (fst (main env fs))).
Proof.
  intros df env fs.
  apply (main_total_never_decreases env fs (fst (main env fs))
           (snd (main env fs))); vm_compute; reflexivity.
Defined.

(** ** Runs one after the other *)

Lemma merge_data_dict_eq (A A' B : dict) :
  dict_wf B -> dict_eq A A' -> dict_eq (merge_data A B) (merge_data A' B).
Proof.
  intros HB H k. rewrite !get_merge_data by assumption. now rewrite (H k).
Qed.

Lemma fold_merge_new_data_dict_eq (envs : list Env) : forall d d',
  dict_eq d d' ->
  dict_eq (fold_left (fun d env => merge_data d (new_data env)) envs d)
          (fold_left (fun d env => merge_data d (new_data env)) envs d').
Proof.
  induction envs as [|env envs IH]; intros d d' H; simpl; [assumption|].
  apply IH. apply merge_data_dict_eq; [apply wf_new_data | assumption].
Qed.

(** X23. After runs that all end with status 0, the persisted CountMap
    is the CountMap persisted at the start merged with the new data of
    each run in turn. *)
Theorem runs_merge_all_new_data (envs : list Env) (fs fs' : file_state) :
  runs envs fs = Some fs' ->
  dict_eq (persisted fs')
          (fold_left (fun d env => merge_data d (new_data env)) envs
                     (persisted fs)).
Proof.
  revert fs. induction envs as [|env envs IH]; intros fs Hruns.
  - inversion Hruns; subst. intros k. reflexivity.
  - cbn [runs] in Hruns. destruct (main env fs) as [fs1 r] eqn:Hmain.
    destruct (exit_status r =? 0) eqn:Hst; [|discriminate].
    apply Z.eqb_eq in Hst. cbn [fold_left].
    intros k. rewrite (IH fs1 Hruns k).
    apply fold_merge_new_data_dict_eq.
    exact (main_status_0 env fs fs1 r Hmain Hst).
Qed.

Lemma runs_merge_all_new_data_witness :
  let df (n : nat) : DataFrame :=
    [("Qual sua Paróquia?", repeat (Some "Paróquia Santa Rita") n)] in
  let env (n : nat) : Env :=
    {| SHEET_ID := None; download := fun _ => Some (df n); write := WriteOk |} in
  let envs := [env 3%nat; env 1%nat; env 0%nat; env 4%nat] in
  let fs := Text (Json.dumps [("Paróquia São José", 7)]) in
  exists fs',
    runs envs fs = Some fs'
    /\ get (persisted fs') "Paróquia Santa Rita"
       = get (fold_left (fun d env => merge_data d (new_data env)) envs
                (persisted fs)) "Paróquia Santa Rita".
Proof.
  intros df env envs fs.
  eexists. split; [vm_compute; reflexivity|].
  apply (runs_merge_all_new_data envs fs). vm_compute. reflexivity.
Defined.
